(** * To-Do-Tasks: the task-list state of [src/comonents/todo.jsx]

    A shallow embedding of the [Todo] React component: its three pieces of
    state, the handlers [addTodo], [toggleTodo] and [deleteTodo], the
    [useState] initializer that reads [localStorage] and the [useEffect]
    that writes it back, together with the platform functions the
    component calls ([String.prototype.trim], [Date.prototype.toISOString],
    [String.prototype.split], [JSON.stringify], [JSON.parse]). *)

From Stdlib Require Import String Ascii List NArith ZArith Bool Lia.
Import ListNotations.
Local Open Scope N_scope.
Set Warnings "-register-all".

(** ** JavaScript strings

    A JavaScript string is a finite sequence of UTF-16 code units. *)

Module JS.

Definition codeunit := N.
Definition jsstring := list codeunit.

(** An ASCII literal of the source, as code units. *)
Definition lit (s : string) : jsstring :=
  map N_of_ascii (list_ascii_of_string s).

Fixpoint eqb (a b : jsstring) : bool :=
  match a, b with
  | [], [] => true
  | x :: a', y :: b' => (x =? y) && eqb a' b'
  | _, _ => false
  end.

(** [ToBoolean] on a string: only the empty string is falsy. *)
Definition truthy (s : jsstring) : bool :=
  match s with [] => false | _ :: _ => true end.

(** [WhiteSpace] and [LineTerminator] code units, the ones [trim] strips:
    TAB, LF, VT, FF, CR, SP, NBSP, U+1680, U+2000..U+200A, LS, PS, U+202F,
    U+205F, U+3000 and the byte order mark. *)
Definition is_space (c : codeunit) : bool :=
  ((9 <=? c) && (c <=? 13))
  || (c =? 32) || (c =? 160) || (c =? 5760)
  || ((8192 <=? c) && (c <=? 8202))
  || (c =? 8232) || (c =? 8233) || (c =? 8239) || (c =? 8287)
  || (c =? 12288) || (c =? 65279).

Fixpoint trimStart (s : jsstring) : jsstring :=
  match s with
  | [] => []
  | c :: r => if is_space c then trimStart r else s
  end.

Definition trimEnd (s : jsstring) : jsstring := rev (trimStart (rev s)).

Definition trim (s : jsstring) : jsstring := trimEnd (trimStart s).

(** [s.split(sep)] for a separator of one code unit: the pieces between
    the occurrences of [sep]; never the empty array. *)
Fixpoint split (sep : codeunit) (s : jsstring) : list jsstring :=
  match s with
  | [] => [[]]
  | c :: r =>
      if c =? sep then [] :: split sep r
      else match split sep r with
           | p :: ps => (c :: p) :: ps
           | [] => [[c]]
           end
  end.

(** [a[0]] on an array of strings ([undefined] cannot arise after [split],
    whose result is never empty). *)
Definition first (a : list jsstring) : jsstring := hd [] a.

End JS.

Import JS.

(** ** Dates

    [new Date()] reads the clock.  A [Date] is kept as the UTC calendar
    fields the engine derives from its time value; [month] is the calendar
    month [1..12]. *)

Module DateModel.

Record Date := {
  year : Z;
  month : N;
  day : N;
  hours : N;
  minutes : N;
  seconds : N;
  milliseconds : N
}.

(** The last [w] decimal digits of [n], most significant first. *)
Fixpoint digits (w : nat) (n : N) : jsstring :=
  match w with
  | O => []
  | S w' => digits w' (n / 10) ++ [48 + n mod 10]
  end.

(** The year of the ISO format: four digits for the years 0 to 9999, a
    sign and six digits otherwise. *)
Definition isoYear (y : Z) : jsstring :=
  if ((0 <=? y) && (y <=? 9999))%Z then digits 4 (Z.to_N y)
  else (if (y <? 0)%Z then 45 else 43) :: digits 6 (Z.abs_N y).

Definition isoDate (d : Date) : jsstring :=
  isoYear (year d) ++ lit "-" ++ digits 2 (month d) ++ lit "-" ++ digits 2 (day d).

Definition isoTime (d : Date) : jsstring :=
  digits 2 (hours d) ++ lit ":" ++ digits 2 (minutes d) ++ lit ":"
  ++ digits 2 (seconds d) ++ lit "." ++ digits 3 (milliseconds d) ++ lit "Z".

(** [d.toISOString()]: [YYYY-MM-DDTHH:mm:ss.sssZ]. *)
Definition toISOString (d : Date) : jsstring :=
  isoDate d ++ lit "T" ++ isoTime d.

End DateModel.

Import DateModel.

(** ** Results of code that can throw *)

Inductive error := SyntaxError.

Inductive result (A : Type) :=
| Ok (a : A)
| Throw (e : error).
Arguments Ok {A} a.
Arguments Throw {A} e.

(** ** JSON

    [JSON.stringify] and [JSON.parse] as ECMA-262 defines them, on strings
    of code units. *)

Module JSON.

(** What [JSON.parse] returns.  A number is kept as the numeral that was
    read (its conversion to a double is not part of this development; no
    field of a task is a number).  The members of an object are listed in
    the order of its own property keys. *)
Inductive value :=
| JNull
| JBool (b : bool)
| JNumber (numeral : jsstring)
| JString (s : jsstring)
| JArray (elements : list value)
| JObject (members : list (jsstring * value)).

(** *** QuoteJSONString *)

Definition is_high (c : codeunit) : bool := (55296 <=? c) && (c <=? 56319).
Definition is_low (c : codeunit) : bool := (56320 <=? c) && (c <=? 57343).

(** The two-character escapes of the table of QuoteJSONString. *)
Definition short_escape (c : codeunit) : option codeunit :=
  if c =? 8 then Some 98            (* backspace, b *)
  else if c =? 9 then Some 116      (* tab, t *)
  else if c =? 10 then Some 110     (* line feed, n *)
  else if c =? 12 then Some 102     (* form feed, f *)
  else if c =? 13 then Some 114     (* carriage return, r *)
  else if c =? 34 then Some 34      (* quotation mark *)
  else if c =? 92 then Some 92      (* reverse solidus *)
  else None.

Definition hexdigit (n : N) : codeunit :=
  if n <? 10 then 48 + n else 87 + n.

(** [\uXXXX] with four lowercase hexadecimal digits. *)
Definition UnicodeEscape (c : codeunit) : jsstring :=
  [92; 117; hexdigit ((c / 4096) mod 16); hexdigit ((c / 256) mod 16);
   hexdigit ((c / 16) mod 16); hexdigit (c mod 16)].

(** The string is read by code points: a high surrogate followed by a low
    one is one code point and is copied; a surrogate on its own is
    escaped, as are the control characters. *)
Fixpoint quote_body (s : jsstring) : jsstring :=
  match s with
  | [] => []
  | c :: r =>
      match short_escape c with
      | Some e => 92 :: e :: quote_body r
      | None =>
          if c <? 32 then UnicodeEscape c ++ quote_body r
          else if is_high c then
            match r with
            | d :: r' =>
                if is_low d then c :: d :: quote_body r'
                else UnicodeEscape c ++ quote_body r
            | [] => UnicodeEscape c
            end
          else if is_low c then UnicodeEscape c ++ quote_body r
          else c :: quote_body r
      end
  end.

Definition QuoteJSONString (s : jsstring) : jsstring :=
  34 :: quote_body s ++ [34].

(** [xs.join(",")] of the serialized elements of an array. *)
Fixpoint join_comma (parts : list jsstring) : jsstring :=
  match parts with
  | [] => []
  | [p] => p
  | p :: ps => p ++ 44 :: join_comma ps
  end.

(** *** Own property keys of the object that [JSON.parse] builds *)

Definition is_digit (c : codeunit) : bool := (48 <=? c) && (c <=? 57).

Definition decimal (s : jsstring) : N :=
  fold_left (fun n c => 10 * n + (c - 48)) s 0.

(** A key is an array index when it is the canonical numeral of an
    integer from 0 to 2^32 - 2. *)
Definition array_index (k : jsstring) : option N :=
  match k with
  | [] => None
  | c :: r =>
      if forallb is_digit k
         && (negb (c =? 48) || match r with [] => true | _ => false end)
         && (Nat.leb (length k) 10) && (decimal k <=? 4294967294)
      then Some (decimal k) else None
  end.

(** [k] is listed before [k'] when [k] is an array index and [k'] is a
    larger one or no index at all. *)
Definition listed_before (k k' : jsstring) : bool :=
  match array_index k, array_index k' with
  | Some n, Some n' => n <? n'
  | Some _, None => true
  | None, _ => false
  end.

(** CreateDataProperty on the object being built: a key that is present
    keeps its place and takes the new value; a new array index goes among
    the indices in ascending order, any other new key goes last. *)
Fixpoint define (k : jsstring) (v : value) (ms : list (jsstring * value))
  : list (jsstring * value) :=
  match ms with
  | [] => [(k, v)]
  | (k', v') :: r =>
      if JS.eqb k' k then (k', v) :: r
      else if listed_before k k' then (k, v) :: ms
      else (k', v') :: define k v r
  end.

(** *** JSON.parse

    The text is read one code unit at a time by a pushdown automaton over
    the JSON grammar: [mode] is the place in the grammar, the stack holds
    the arrays and objects that are open. *)

Inductive frame :=
| FArr (elements : list value)
| FObj (members : list (jsstring * value))
| FKey (k : jsstring).

Inductive numstate :=
| NMinus | NZero | NInt | NDot | NFrac | NExpMark | NExpSign | NExp.

Inductive mode :=
| MValue                      (* a value must follow *)
| MArrFirst                   (* after [ : a value or ] *)
| MArrNext                    (* after an element: , or ] *)
| MObjFirst                   (* after { : a member name or } *)
| MObjKey                     (* after , in an object: a member name *)
| MColon                      (* after a member name *)
| MObjNext                    (* after a member: , or } *)
| MDone (v : value)           (* the text is complete *)
| MString (key : bool) (acc : jsstring)
| MEscape (key : bool) (acc : jsstring)
| MHex (key : bool) (acc : jsstring) (remaining : nat) (code : N)
| MLiteral (rest : jsstring) (v : value)
| MNumber (ns : numstate) (acc : jsstring).

Definition pstate : Type := mode * list frame.

Definition is_ws (c : codeunit) : bool :=
  (c =? 9) || (c =? 10) || (c =? 13) || (c =? 32).

Definition hexval (c : codeunit) : option N :=
  if is_digit c then Some (c - 48)
  else if (97 <=? c) && (c <=? 102) then Some (c - 87)
  else if (65 <=? c) && (c <=? 70) then Some (c - 55)
  else None.

Definition unescape (c : codeunit) : option codeunit :=
  if c =? 34 then Some 34
  else if c =? 92 then Some 92
  else if c =? 47 then Some 47
  else if c =? 98 then Some 8
  else if c =? 102 then Some 12
  else if c =? 110 then Some 10
  else if c =? 114 then Some 13
  else if c =? 116 then Some 9
  else None.

(** A value is complete: it is the whole text, the next element of the
    open array, or the value of the pending member of the open object. *)
Definition reduce (v : value) (stk : list frame) : result pstate :=
  match stk with
  | [] => Ok (MDone v, [])
  | FArr es :: st => Ok (MArrNext, FArr (es ++ [v]) :: st)
  | FKey k :: FObj ms :: st => Ok (MObjNext, FObj (define k v ms) :: st)
  | _ => Throw SyntaxError
  end.

Definition close_array (stk : list frame) : result pstate :=
  match stk with
  | FArr es :: st => reduce (JArray es) st
  | _ => Throw SyntaxError
  end.

Definition close_object (stk : list frame) : result pstate :=
  match stk with
  | FObj ms :: st => reduce (JObject ms) st
  | _ => Throw SyntaxError
  end.

(** The first code unit of a value. *)
Definition start_value (c : codeunit) (stk : list frame) : result pstate :=
  if c =? 34 then Ok (MString false [], stk)
  else if c =? 91 then Ok (MArrFirst, FArr [] :: stk)
  else if c =? 123 then Ok (MObjFirst, FObj [] :: stk)
  else if c =? 116 then Ok (MLiteral (lit "rue") (JBool true), stk)
  else if c =? 102 then Ok (MLiteral (lit "alse") (JBool false), stk)
  else if c =? 110 then Ok (MLiteral (lit "ull") JNull, stk)
  else if c =? 45 then Ok (MNumber NMinus [c], stk)
  else if c =? 48 then Ok (MNumber NZero [c], stk)
  else if is_digit c then Ok (MNumber NInt [c], stk)
  else Throw SyntaxError.

(** What may follow a complete value. *)
Definition after_value (m : mode) (c : codeunit) (stk : list frame)
  : result pstate :=
  match m with
  | MArrNext =>
      if is_ws c then Ok (MArrNext, stk)
      else if c =? 44 then Ok (MValue, stk)
      else if c =? 93 then close_array stk
      else Throw SyntaxError
  | MObjNext =>
      if is_ws c then Ok (MObjNext, stk)
      else if c =? 44 then Ok (MObjKey, stk)
      else if c =? 125 then close_object stk
      else Throw SyntaxError
  | MDone v => if is_ws c then Ok (MDone v, stk) else Throw SyntaxError
  | _ => Throw SyntaxError
  end.

Definition is_exp (c : codeunit) : bool := (c =? 101) || (c =? 69).

(** A numeral that may end here ends at the first code unit that cannot
    continue it; that code unit is then read after the number. *)
Definition end_number (acc : jsstring) (c : codeunit) (stk : list frame)
  : result pstate :=
  match reduce (JNumber acc) stk with
  | Ok (m, stk') => after_value m c stk'
  | Throw e => Throw e
  end.

Definition step_number (ns : numstate) (acc : jsstring) (c : codeunit)
  (stk : list frame) : result pstate :=
  let go ns' := Ok (MNumber ns' (acc ++ [c]), stk) in
  match ns with
  | NMinus =>
      if c =? 48 then go NZero
      else if is_digit c then go NInt
      else Throw SyntaxError
  | NZero =>
      if c =? 46 then go NDot
      else if is_exp c then go NExpMark
      else end_number acc c stk
  | NInt =>
      if is_digit c then go NInt
      else if c =? 46 then go NDot
      else if is_exp c then go NExpMark
      else end_number acc c stk
  | NDot => if is_digit c then go NFrac else Throw SyntaxError
  | NFrac =>
      if is_digit c then go NFrac
      else if is_exp c then go NExpMark
      else end_number acc c stk
  | NExpMark =>
      if (c =? 43) || (c =? 45) then go NExpSign
      else if is_digit c then go NExp
      else Throw SyntaxError
  | NExpSign => if is_digit c then go NExp else Throw SyntaxError
  | NExp => if is_digit c then go NExp else end_number acc c stk
  end.

(** The end of a string: a member name waits for its colon, any other
    string is a value. *)
Definition end_string (key : bool) (acc : jsstring) (stk : list frame)
  : result pstate :=
  if key then Ok (MColon, FKey acc :: stk) else reduce (JString acc) stk.

Definition step (st : pstate) (c : codeunit) : result pstate :=
  let (m, stk) := st in
  match m with
  | MValue => if is_ws c then Ok (MValue, stk) else start_value c stk
  | MArrFirst =>
      if is_ws c then Ok (MArrFirst, stk)
      else if c =? 93 then close_array stk
      else start_value c stk
  | MObjFirst =>
      if is_ws c then Ok (MObjFirst, stk)
      else if c =? 125 then close_object stk
      else if c =? 34 then Ok (MString true [], stk)
      else Throw SyntaxError
  | MObjKey =>
      if is_ws c then Ok (MObjKey, stk)
      else if c =? 34 then Ok (MString true [], stk)
      else Throw SyntaxError
  | MColon =>
      if is_ws c then Ok (MColon, stk)
      else if c =? 58 then Ok (MValue, stk)
      else Throw SyntaxError
  | MArrNext | MObjNext | MDone _ => after_value m c stk
  | MString key acc =>
      if c =? 34 then end_string key acc stk
      else if c =? 92 then Ok (MEscape key acc, stk)
      else if c <? 32 then Throw SyntaxError
      else Ok (MString key (acc ++ [c]), stk)
  | MEscape key acc =>
      if c =? 117 then Ok (MHex key acc 4 0, stk)
      else match unescape c with
           | Some x => Ok (MString key (acc ++ [x]), stk)
           | None => Throw SyntaxError
           end
  | MHex key acc remaining code =>
      match hexval c with
      | Some h =>
          let code' := 16 * code + h in
          match remaining with
          | 1%nat => Ok (MString key (acc ++ [code']), stk)
          | _ => Ok (MHex key acc (Nat.pred remaining) code', stk)
          end
      | None => Throw SyntaxError
      end
  | MLiteral rest v =>
      match rest with
      | [] => Throw SyntaxError
      | x :: rest' =>
          if c =? x then
            match rest' with
            | [] => reduce v stk
            | _ => Ok (MLiteral rest' v, stk)
            end
          else Throw SyntaxError
      end
  | MNumber ns acc => step_number ns acc c stk
  end.

Fixpoint run (st : pstate) (s : jsstring) : result pstate :=
  match s with
  | [] => Ok st
  | c :: r =>
      match step st c with
      | Ok st' => run st' r
      | Throw e => Throw e
      end
  end.

(** The end of the text: a complete value, or a numeral that may end
    here and is the whole text. *)
Definition finish (st : pstate) : result value :=
  match st with
  | (MDone v, _) => Ok v
  | (MNumber (NZero | NInt | NFrac | NExp) acc, []) => Ok (JNumber acc)
  | _ => Throw SyntaxError
  end.

Definition parse (text : jsstring) : result value :=
  match run (MValue, []) text with
  | Ok st => finish st
  | Throw e => Throw e
  end.

End JSON.

Import JSON.

(** ** The component *)

(** A task, as [addTodo] builds it: [{ id, text, completed, date }]. *)
Record Task := {
  id : jsstring;
  text : jsstring;
  completed : bool;
  date : jsstring
}.

(** The three pieces of state of [Todo]. *)
Record State := {
  todos : list Task;
  inputValue : jsstring;
  inputDate : jsstring
}.

(** What a handler asks of React: for each piece of state, the value its
    setter was called with, or [None] when the setter was not called.
    Every array handed to [setTodos] is a new array (a literal, the result
    of [map] or of [filter]), never the array of the current state. *)
Record Update := {
  setTodos : option (list Task);
  setInputValue : option jsstring;
  setInputDate : option jsstring
}.

Definition no_update : Update :=
  {| setTodos := None; setInputValue := None; setInputDate := None |}.

(** [inputDate || new Date().toISOString().split('T')[0]] *)
Definition date_or_today (inputDate : jsstring) (now : Date) : jsstring :=
  if truthy inputDate then inputDate
  else first (split 84 (toISOString now)).

(** [addTodo]; [uuid] is what [crypto.randomUUID()] returns and [now] what
    [new Date()] reads when they are called. *)
Definition addTodo (uuid : jsstring) (now : Date) (s : State) : Update :=
  let text := trim (inputValue s) in
  if negb (truthy text) then no_update
  else
    {| setTodos :=
         Some (todos s ++
               [ {| id := uuid;
                    text := text;
                    completed := false;
                    date := date_or_today (inputDate s) now |} ]);
       setInputValue := Some [];
       setInputDate := Some [] |}.

(** [{ ...t, completed: !t.completed }] *)
Definition flip (t : Task) : Task :=
  {| id := id t; text := text t; completed := negb (completed t);
     date := date t |}.

(** The updater [toggleTodo] hands to [setTodos]:
    [prev.map((t) => (t.id === id ? { ...t, completed: !t.completed } : t))]. *)
Definition toggleTodo (i : jsstring) (prev : list Task) : list Task :=
  map (fun t => if JS.eqb (id t) i then flip t else t) prev.

(** The updater [deleteTodo] hands to [setTodos]:
    [prev.filter((t) => t.id !== id)]. *)
Definition deleteTodo (i : jsstring) (prev : list Task) : list Task :=
  filter (fun t => negb (JS.eqb (id t) i)) prev.

(** [todos.filter((t) => !t.completed).length], the counter of the view. *)
Definition remaining (l : list Task) : nat :=
  length (filter (fun t => negb (completed t)) l).

(** What the user does. *)
Inductive Event :=
| ChangeText (v : jsstring)                (* onChange of the text input *)
| ChangeDate (v : jsstring)                (* onChange of the date input *)
| Add (uuid : jsstring) (now : Date)       (* the Add button, or Enter *)
| Toggle (i : jsstring)                    (* the checkbox of a task *)
| Delete (i : jsstring).                   (* the delete button of a task *)

Definition handle (e : Event) (s : State) : Update :=
  match e with
  | ChangeText v =>
      {| setTodos := None; setInputValue := Some v; setInputDate := None |}
  | ChangeDate v =>
      {| setTodos := None; setInputValue := None; setInputDate := Some v |}
  | Add uuid now => addTodo uuid now s
  | Toggle i =>
      {| setTodos := Some (toggleTodo i (todos s));
         setInputValue := None; setInputDate := None |}
  | Delete i =>
      {| setTodos := Some (deleteTodo i (todos s));
         setInputValue := None; setInputDate := None |}
  end.

Definition or_else {A} (o : option A) (a : A) : A :=
  match o with Some x => x | None => a end.

(** The state of the next render. *)
Definition commit (u : Update) (s : State) : State :=
  {| todos := or_else (setTodos u) (todos s);
     inputValue := or_else (setInputValue u) (inputValue s);
     inputDate := or_else (setInputDate u) (inputDate s) |}.

Definition next (e : Event) (s : State) : State := commit (handle e s) s.

(** *** Persistence *)

(** A task is the object with the own properties [id], [text],
    [completed], [date], in this order. *)
Definition task_value (t : Task) : value :=
  JObject [ (lit "id", JString (id t));
            (lit "text", JString (text t));
            (lit "completed", JBool (completed t));
            (lit "date", JString (date t)) ].

Definition tasks_value (l : list Task) : value :=
  JArray (map task_value l).

(** [JSON.stringify] of a task: its properties in order, no white space. *)
Definition stringify_task (t : Task) : jsstring :=
  lit "{" ++ QuoteJSONString (lit "id") ++ lit ":" ++ QuoteJSONString (id t)
  ++ lit "," ++ QuoteJSONString (lit "text") ++ lit ":"
  ++ QuoteJSONString (text t)
  ++ lit "," ++ QuoteJSONString (lit "completed") ++ lit ":"
  ++ (if completed t then lit "true" else lit "false")
  ++ lit "," ++ QuoteJSONString (lit "date") ++ lit ":"
  ++ QuoteJSONString (date t) ++ lit "}".

(** [JSON.stringify(todos)] *)
Definition stringify (l : list Task) : jsstring :=
  lit "[" ++ join_comma (map stringify_task l) ++ lit "]".

(** The initializer of [useState]:
    [stored ? JSON.parse(stored) : []], where [stored] is
    [localStorage.getItem("todos")], [None] for [null]. *)
Definition initTodos (stored : option jsstring) : result value :=
  match stored with
  | None => Ok (JArray [])
  | Some text => if truthy text then parse text else Ok (JArray [])
  end.

(** The mounted component with the one slot of [localStorage] it uses
    and the log of the values written to it. *)
Record Component := {
  state : State;
  slot : option jsstring;
  writes : list jsstring
}.

(** The effect: [localStorage.setItem("todos", JSON.stringify(todos))].
    The slot has no quota here: the write succeeds. *)
Definition persist (c : Component) : Component :=
  {| state := state c;
     slot := Some (stringify (todos (state c)));
     writes := writes c ++ [stringify (todos (state c))] |}.

(** An event: the handler runs, React commits the batch of updates in one
    render, and the effect runs after it when its dependency [todos] is a
    new array. *)
Definition dispatch (e : Event) (c : Component) : Component :=
  let u := handle e (state c) in
  let c' := {| state := commit u (state c); slot := slot c;
               writes := writes c |} in
  match setTodos u with
  | Some _ => persist c'
  | None => c'
  end.

Definition run_events (c : Component) (es : list Event) : Component :=
  fold_left (fun c e => dispatch e c) es c.

(** The first render of a component whose state starts at [s]: the effect
    runs once after it. *)
Definition mounted (s : State) (stored : option jsstring) : Component :=
  persist {| state := s; slot := stored; writes := [] |}.

Definition ids (l : list Task) : list jsstring := map id l.

(** The tasks that [deleteTodo i] drops. *)
Definition matching (i : jsstring) (l : list Task) : list Task :=
  filter (fun t => JS.eqb (id t) i) l.

(** The events that change the list of tasks. *)
Definition mutating (e : Event) (s : State) : bool :=
  match e with
  | Add _ _ => truthy (trim (inputValue s))
  | Toggle _ | Delete _ => true
  | ChangeText _ | ChangeDate _ => false
  end.

(** Along the events [es] from the state [s], each identifier that
    [crypto.randomUUID()] returns is not the [id] of a task of the list at
    that moment.  The function is called by an Add only when the text does
    not trim to the empty string. *)
Fixpoint generator_fresh (s : State) (es : list Event) : Prop :=
  match es with
  | [] => True
  | e :: es' =>
      match e with
      | Add uuid _ =>
          truthy (trim (inputValue s)) = true -> ~ In uuid (ids (todos s))
      | _ => True
      end /\ generator_fresh (next e s) es'
  end.

(** The code units a JSON value can start with. *)
Definition value_start (c : codeunit) : bool :=
  (c =? 34) || (c =? 91) || (c =? 123) || (c =? 116) || (c =? 102)
  || (c =? 110) || (c =? 45) || is_digit c.

(** The number of events of the run [es] from the state [s] whose handler
    calls [setTodos]. *)
Fixpoint mutations (s : State) (es : list Event) : nat :=
  match es with
  | [] => O
  | e :: es' =>
      ((if mutating e s then 1 else 0) + mutations (next e s) es')%nat
  end.

(** A text that is not empty and has no white space at either end. *)
Definition trimmed (x : jsstring) : bool :=
  match x with
  | [] => false
  | c :: _ => negb (is_space c) && negb (is_space (last x c))
  end.

(** *** The calendar date of the specification

    The specification gives a task without a typed date "the current
    calendar date", the date on the user's calendar.  [spec_calendar_date]
    follows these words, to be compared with what [addTodo] stores: the
    date in the zone that is [offset] minutes east of UTC (from -720 to
    840), at the moment of the clock reading [now]. *)

Definition leap_year (y : Z) : bool :=
  ((y mod 4 =? 0) && (negb (y mod 100 =? 0) || (y mod 400 =? 0)))%Z.

Definition days_in_month (y : Z) (m : N) : N :=
  if m =? 2 then (if leap_year y then 29 else 28)
  else if (m =? 4) || (m =? 6) || (m =? 9) || (m =? 11) then 30
  else 31.

Definition next_day (y : Z) (m d : N) : Z * N * N :=
  if d <? days_in_month y m then (y, m, d + 1)
  else if m <? 12 then (y, m + 1, 1)
  else ((y + 1)%Z, 1, 1).

Definition prev_day (y : Z) (m d : N) : Z * N * N :=
  if 1 <? d then (y, m, d - 1)
  else if 1 <? m then (y, m - 1, days_in_month y (m - 1))
  else ((y - 1)%Z, 12, 31).

Definition local_day (offset : Z) (now : Date) : Z * N * N :=
  let t := (Z.of_N (hours now) * 60 + Z.of_N (minutes now) + offset)%Z in
  if (t <? 0)%Z then prev_day (year now) (month now) (day now)
  else if (1440 <=? t)%Z then next_day (year now) (month now) (day now)
  else (year now, month now, day now).

Definition spec_calendar_date (offset : Z) (now : Date) : jsstring :=
  let '(y, m, d) := local_day offset now in
  isoYear y ++ lit "-" ++ digits 2 m ++ lit "-" ++ digits 2 d.

(** ** Facts about strings and dates *)

Section StringFacts.

Lemma jseqb_refl (a : jsstring) : JS.eqb a a = true.
Proof.
  induction a as [|x a IH]; simpl; [reflexivity|].
  now rewrite N.eqb_refl, IH.
Qed.

Lemma jseqb_eq (a b : jsstring) : JS.eqb a b = true <-> a = b.
Proof.
  split.
  - revert b; induction a as [|x a IH]; intros [|y b]; simpl; try discriminate; auto.
    intros H. apply andb_true_iff in H as [Hx Hr].
    apply N.eqb_eq in Hx. f_equal; auto.
  - intros ->. apply jseqb_refl.
Qed.

Lemma jseqb_neq (a b : jsstring) : JS.eqb a b = false <-> a <> b.
Proof.
  rewrite <- jseqb_eq. destruct (JS.eqb a b); split; congruence.
Qed.

Lemma split_first_prefix (sep : codeunit) (p r : jsstring) :
  Forall (fun c => c <> sep) p ->
  first (split sep (p ++ sep :: r)) = p.
Proof.
  induction 1 as [|c p Hc Hp IH]; simpl.
  - now rewrite N.eqb_refl.
  - apply N.eqb_neq in Hc. rewrite Hc.
    unfold first in IH.
    destruct (split sep (p ++ sep :: r)) as [|q qs]; simpl in *; now subst.
Qed.

End StringFacts.

Section DateFacts.

Lemma digits_are_digits (w : nat) (n : N) :
  Forall (fun c => 48 <= c <= 57) (digits w n).
Proof.
  revert n; induction w as [|w IH]; intros n; cbn [digits]; [constructor|].
  apply Forall_app; split; [apply IH|].
  constructor; [|constructor].
  assert (n mod 10 < 10) by (apply N.mod_upper_bound; discriminate).
  generalize dependent (n mod 10). intros m Hm. lia.
Qed.

Lemma digits_length (w : nat) (n : N) : length (digits w n) = w.
Proof.
  revert n; induction w as [|w IH]; intros n; simpl; [reflexivity|].
  rewrite length_app, IH. simpl. lia.
Qed.

Lemma digits_no_T (w : nat) (n : N) :
  Forall (fun c => c <> 84) (digits w n).
Proof.
  eapply Forall_impl; [|apply digits_are_digits].
  simpl. intros c Hc. lia.
Qed.

Lemma isoYear_no_T (y : Z) : Forall (fun c => c <> 84) (isoYear y).
Proof.
  unfold isoYear.
  destruct ((0 <=? y) && (y <=? 9999))%Z; [apply digits_no_T|].
  constructor; [destruct (y <? 0)%Z; discriminate|apply digits_no_T].
Qed.

Lemma isoDate_no_T (d : Date) : Forall (fun c => c <> 84) (isoDate d).
Proof.
  unfold isoDate.
  rewrite !Forall_app.
  repeat split; try apply isoYear_no_T; try apply digits_no_T;
    (constructor; [discriminate|constructor]).
Qed.

Lemma isoYear_nonempty (y : Z) : isoYear y <> [].
Proof.
  unfold isoYear.
  destruct ((0 <=? y) && (y <=? 9999))%Z; [|discriminate].
  intros H. apply (f_equal (@length _)) in H.
  rewrite digits_length in H. discriminate.
Qed.

Lemma isoDate_nonempty (d : Date) : isoDate d <> [].
Proof.
  unfold isoDate. intros H.
  apply app_eq_nil in H as [H _]. now apply isoYear_nonempty in H.
Qed.

(** [d.toISOString().split('T')[0]] is the date part of the ISO string. *)
Lemma toISOString_split_T (d : Date) :
  first (split 84 (toISOString d)) = isoDate d.
Proof.
  unfold toISOString. apply (split_first_prefix 84 (isoDate d) (isoTime d)).
  apply isoDate_no_T.
Qed.

End DateFacts.

(** ** JSON.parse and JSON.stringify on examples *)

Section JSONExamples.

Example parse_array :
  parse (lit "[1, -2.5e3 , true,null, [] ]")
  = Ok (JArray [JNumber (lit "1"); JNumber (lit "-2.5e3"); JBool true;
                JNull; JArray []]).
Proof. reflexivity. Qed.

Example parse_string_escapes :
  parse (34 :: lit "a\u0041\n\/" ++ [34]) = Ok (JString [97; 65; 10; 47]).
Proof. reflexivity. Qed.

Example parse_object_key_order :
  parse (lit "{'b':1,'1':2,'0':3,'b':4}")
  = Throw SyntaxError
  /\ parse (map (fun c => if c =? 39 then 34 else c)
              (lit "{'b':1,'1':2,'0':3,'b':4}"))
     = Ok (JObject [(lit "0", JNumber (lit "3")); (lit "1", JNumber (lit "2"));
                    (lit "b", JNumber (lit "4"))]).
Proof. split; reflexivity. Qed.

Example parse_rejects :
  parse (lit "") = Throw SyntaxError
  /\ parse (lit "{") = Throw SyntaxError
  /\ parse (lit "[1,]") = Throw SyntaxError
  /\ parse (lit "01") = Throw SyntaxError
  /\ parse (lit "tru") = Throw SyntaxError
  /\ parse (lit "[] x") = Throw SyntaxError
  /\ parse (34 :: lit "open") = Throw SyntaxError.
Proof. repeat split. Qed.

(** Control characters, the quotation mark and a surrogate on its own are
    escaped; a surrogate pair is copied. *)
Example quote_escapes :
  QuoteJSONString [97; 10; 34; 31; 55357; 56832; 56832]
  = 34 :: lit "a\n\" ++ 34 :: lit "\u001f" ++ [55357; 56832]
    ++ lit "\ude00" ++ [34].
Proof. reflexivity. Qed.

Example stringify_two_tasks :
  map (fun c => if c =? 34 then 39 else c)
      (stringify
         [ {| id := lit "a"; text := lit "Task A"; completed := false;
              date := lit "2025-06-01" |};
           {| id := lit "b"; text := lit "Task B"; completed := true;
              date := lit "2025-06-02" |} ])
  = lit "[{'id':'a','text':'Task A','completed':false,'date':'2025-06-01'},{'id':'b','text':'Task B','completed':true,'date':'2025-06-02'}]".
Proof. reflexivity. Qed.

Example toISOString_noon :
  toISOString {| year := 2025; month := 6; day := 1; hours := 12;
                 minutes := 0; seconds := 0; milliseconds := 0 |}
  = lit "2025-06-01T12:00:00.000Z".
Proof. reflexivity. Qed.

Example trim_example : trim (lit "  Buy milk ") = lit "Buy milk".
Proof. reflexivity. Qed.

(** The calendar date of the specification on a few clock readings: a
    zone west of UTC just after midnight UTC, across the end of February
    in leap and common years, and across the end of the year. *)
Example spec_calendar_date_examples :
  let at_ (y : Z) m d h mi :=
    {| year := y; month := m; day := d; hours := h; minutes := mi;
       seconds := 0; milliseconds := 0 |} in
  spec_calendar_date (-60) (at_ 2024%Z 3 1 0 30) = lit "2024-02-29"
  /\ spec_calendar_date (-60) (at_ 2023%Z 3 1 0 30) = lit "2023-02-28"
  /\ spec_calendar_date (-60) (at_ 1900%Z 3 1 0 30) = lit "1900-02-28"
  /\ spec_calendar_date (-1) (at_ 2025%Z 1 1 0 0) = lit "2024-12-31"
  /\ spec_calendar_date 60 (at_ 2025%Z 12 31 23 30) = lit "2026-01-01"
  /\ spec_calendar_date 330 (at_ 2025%Z 6 1 12 0) = lit "2025-06-01".
Proof. repeat split. Qed.

(** In the zone of UTC the calendar date of the specification is the
    date part of [toISOString()]. *)
Lemma spec_calendar_date_utc (now : Date) :
  hours now < 24 -> minutes now < 60 ->
  spec_calendar_date 0 now = isoDate now.
Proof.
  intros Hh Hm. unfold spec_calendar_date, local_day.
  replace (Z.of_N (hours now) * 60 + Z.of_N (minutes now) + 0 <? 0)%Z
    with false by (symmetry; apply Z.ltb_ge; lia).
  replace (1440 <=? Z.of_N (hours now) * 60 + Z.of_N (minutes now) + 0)%Z
    with false by (symmetry; apply Z.leb_gt; lia).
  reflexivity.
Qed.

End JSONExamples.

(** ** The handlers on the list of tasks *)

Section Handlers.

Implicit Types (l prev : list Task) (t : Task) (i uuid : jsstring)
  (s : State) (c : Component) (e : Event) (now : Date).

Lemma flip_flip t : flip (flip t) = t.
Proof. destruct t; unfold flip; simpl. now rewrite negb_involutive. Qed.

Lemma toggleTodo_length i l : length (toggleTodo i l) = length l.
Proof. apply length_map. Qed.

Lemma toggleTodo_ids i l : ids (toggleTodo i l) = ids l.
Proof.
  unfold ids, toggleTodo. rewrite map_map. apply map_ext.
  intros t. now destruct (JS.eqb (id t) i).
Qed.

Lemma toggleTodo_involutive i l : toggleTodo i (toggleTodo i l) = l.
Proof.
  unfold toggleTodo. rewrite map_map.
  rewrite <- (map_id l) at 2. apply map_ext. intros t.
  destruct (JS.eqb (id t) i) eqn:E; simpl; rewrite E; [apply flip_flip|reflexivity].
Qed.

Lemma toggleTodo_nth i l k t :
  nth_error l k = Some t ->
  nth_error (toggleTodo i l) k
  = Some (if JS.eqb (id t) i then flip t else t).
Proof. intros H. unfold toggleTodo. now rewrite nth_error_map, H. Qed.

Lemma deleteTodo_ids i l :
  ids (deleteTodo i l) = filter (fun k => negb (JS.eqb k i)) (ids l).
Proof.
  unfold ids, deleteTodo. induction l as [|t l IH]; simpl; [reflexivity|].
  destruct (JS.eqb (id t) i); simpl; now rewrite IH.
Qed.

Lemma deleteTodo_absent i l : ~ In i (ids l) -> deleteTodo i l = l.
Proof.
  unfold ids, deleteTodo. induction l as [|t l IH]; simpl; intros H; [reflexivity|].
  destruct (JS.eqb (id t) i) eqn:E.
  - apply jseqb_eq in E. tauto.
  - simpl. f_equal. apply IH. tauto.
Qed.

Lemma deleteTodo_no_id i l : ~ In i (ids (deleteTodo i l)).
Proof.
  rewrite deleteTodo_ids. intros H. apply filter_In in H as [_ H].
  now rewrite jseqb_refl in H.
Qed.

Lemma deleteTodo_length i l :
  (length (deleteTodo i l) + length (matching i l) = length l)%nat.
Proof.
  unfold deleteTodo, matching. induction l as [|t l IH]; simpl; [reflexivity|].
  destruct (JS.eqb (id t) i); simpl; lia.
Qed.

Lemma deleteTodo_split i l :
  NoDup (ids l) -> In i (ids l) ->
  exists l1 t l2,
    l = l1 ++ t :: l2 /\ id t = i /\ deleteTodo i l = l1 ++ l2.
Proof.
  unfold ids. induction l as [|t l IH]; simpl; intros Hnd Hin; [contradiction|].
  inversion Hnd as [|? ? Hnotin Hnd']; subst.
  unfold deleteTodo; simpl.
  destruct (JS.eqb (id t) i) eqn:E; simpl.
  - apply jseqb_eq in E. subst i.
    exists [], t, l. repeat split.
    simpl. now apply deleteTodo_absent.
  - apply jseqb_neq in E.
    destruct Hin as [Hin|Hin]; [contradiction|].
    destruct (IH Hnd' Hin) as (l1 & t' & l2 & Hl & Hid & Hdel).
    exists (t :: l1), t', l2. repeat split; auto.
    + simpl. now f_equal.
    + simpl. f_equal. exact Hdel.
Qed.

Lemma commit_no_update s : commit no_update s = s.
Proof. now destruct s. Qed.

Lemma addTodo_blank uuid now s :
  trim (inputValue s) = [] -> addTodo uuid now s = no_update.
Proof. unfold addTodo. now intros ->. Qed.

Lemma addTodo_nonblank uuid now s :
  trim (inputValue s) <> [] ->
  addTodo uuid now s
  = {| setTodos :=
         Some (todos s ++
               [ {| id := uuid; text := trim (inputValue s);
                    completed := false;
                    date := date_or_today (inputDate s) now |} ]);
       setInputValue := Some [];
       setInputDate := Some [] |}.
Proof.
  unfold addTodo. destruct (trim (inputValue s)); [congruence|reflexivity].
Qed.

Lemma date_or_today_spec (d : jsstring) now :
  date_or_today d now = if truthy d then d else isoDate now.
Proof.
  unfold date_or_today. destruct (truthy d); [reflexivity|].
  apply toISOString_split_T.
Qed.

Lemma date_or_today_nonempty (d : jsstring) now : date_or_today d now <> [].
Proof.
  rewrite date_or_today_spec. destruct d; simpl; [apply isoDate_nonempty|discriminate].
Qed.

(** The list of tasks after an event. *)
Lemma next_todos e s :
  todos (next e s)
  = match e with
    | ChangeText _ | ChangeDate _ => todos s
    | Add uuid now =>
        if truthy (trim (inputValue s)) then
          todos s ++ [ {| id := uuid; text := trim (inputValue s);
                          completed := false;
                          date := date_or_today (inputDate s) now |} ]
        else todos s
    | Toggle i => toggleTodo i (todos s)
    | Delete i => deleteTodo i (todos s)
    end.
Proof.
  destruct e; try reflexivity.
  unfold next, handle, addTodo.
  now destruct (truthy (trim (inputValue s))).
Qed.

Lemma dispatch_state e c : state (dispatch e c) = next e (state c).
Proof.
  unfold dispatch, next. now destruct (setTodos (handle e (state c))).
Qed.

Lemma run_events_app c es es' :
  run_events c (es ++ es') = run_events (run_events c es) es'.
Proof. apply fold_left_app. Qed.

End Handlers.

(** ** Reading back what [JSON.stringify] wrote *)

Section RoundTrip.

Implicit Types (s r acc : jsstring) (c : codeunit) (stk : list frame)
  (key : bool) (st : pstate).

Lemma run_app st s r :
  run st (s ++ r)
  = match run st s with Ok st' => run st' r | Throw e => Throw e end.
Proof.
  revert st; induction s as [|c s IH]; intros st; simpl; [reflexivity|].
  destruct (step st c); [apply IH|reflexivity].
Qed.

Lemma hexval_hexdigit (n : N) : n < 16 -> hexval (hexdigit n) = Some n.
Proof.
  intros H. unfold hexdigit, hexval, is_digit.
  destruct (N.ltb_spec n 10).
  - replace (48 <=? 48 + n) with true by (symmetry; apply N.leb_le; lia).
    replace (48 + n <=? 57) with true by (symmetry; apply N.leb_le; lia).
    cbn [andb]. f_equal. lia.
  - replace (48 <=? 87 + n) with true by (symmetry; apply N.leb_le; lia).
    replace (87 + n <=? 57) with false by (symmetry; apply N.leb_gt; lia).
    replace (97 <=? 87 + n) with true by (symmetry; apply N.leb_le; lia).
    replace (87 + n <=? 102) with true by (symmetry; apply N.leb_le; lia).
    cbn [andb]. f_equal. lia.
Qed.

Lemma nibbles (c : N) :
  c < 65536 ->
  16 * (16 * (16 * (16 * 0 + (c / 4096) mod 16) + (c / 256) mod 16)
        + (c / 16) mod 16) + c mod 16 = c.
Proof.
  intros H.
  assert (H1 : c / 4096 < 16) by (apply N.Div0.div_lt_upper_bound; lia).
  rewrite (N.mod_small (c / 4096) 16) by exact H1.
  pose proof (N.div_mod c 16 ltac:(discriminate)) as E0.
  pose proof (N.div_mod (c / 16) 16 ltac:(discriminate)) as E1.
  pose proof (N.div_mod (c / 16 / 16) 16 ltac:(discriminate)) as E2.
  assert (D2 : c / 16 / 16 = c / 256)
    by (rewrite N.Div0.div_div; reflexivity).
  assert (D3 : c / 256 / 16 = c / 4096)
    by (rewrite N.Div0.div_div; reflexivity).
  rewrite D2 in E1, E2. rewrite D3 in E2.
  lia.
Qed.

Lemma mod16_lt (n : N) : n mod 16 < 16.
Proof. apply N.mod_upper_bound. discriminate. Qed.

Lemma step_hex key acc stk n code d :
  d < 16 ->
  step (MHex key acc (S n) code, stk) (hexdigit d)
  = match n with
    | O => Ok (MString key (acc ++ [16 * code + d]), stk)
    | S _ => Ok (MHex key acc n (16 * code + d), stk)
    end.
Proof.
  intros H. cbn [step]. rewrite hexval_hexdigit by exact H.
  now destruct n.
Qed.

(** An escape [\uXXXX] is read back as the code unit it was made from. *)
Lemma run_UnicodeEscape key acc stk c r :
  c < 65536 ->
  run (MString key acc, stk) (UnicodeEscape c ++ r)
  = run (MString key (acc ++ [c]), stk) r.
Proof.
  intros H. unfold UnicodeEscape. cbn [app run].
  change (step (MString key acc, stk) 92) with (Ok (MEscape key acc, stk)).
  cbv iota.
  change (step (MEscape key acc, stk) 117) with (Ok (MHex key acc 4 0, stk)).
  cbv iota.
  rewrite !step_hex by apply mod16_lt.
  now rewrite nibbles.
Qed.

(** A code unit that is copied is read back as itself. *)
Lemma step_plain key acc stk c :
  c <> 34 -> c <> 92 -> 32 <= c ->
  step (MString key acc, stk) c = Ok (MString key (acc ++ [c]), stk).
Proof.
  intros H1 H2 H3. cbn [step].
  apply N.eqb_neq in H1, H2. rewrite H1, H2.
  replace (c <? 32) with false by (symmetry; apply N.ltb_ge; exact H3).
  reflexivity.
Qed.

Ltac case_code c :=
  repeat match goal with
         | |- context [c =? ?k] =>
             destruct (N.eqb_spec c k) as [->|?]
         end.

Lemma run_short_escape key acc stk c e r :
  short_escape c = Some e ->
  run (MString key acc, stk) (92 :: e :: r)
  = run (MString key (acc ++ [c]), stk) r.
Proof.
  unfold short_escape. case_code c; intros [= <-]; reflexivity.
Qed.

Lemma short_escape_none c :
  short_escape c = None -> c <> 34 /\ c <> 92.
Proof.
  unfold short_escape. case_code c; intros [=]; auto.
Qed.

Lemma quote_body_read_back_aux (n : nat) :
  forall s, (length s <= n)%nat ->
  forall key acc stk r,
    run (MString key acc, stk) (quote_body s ++ r)
    = run (MString key (acc ++ s), stk) r.
Proof.
  induction n as [|n IH]; intros s Hlen key acc stk r.
  - destruct s; [|simpl in Hlen; lia]. simpl. now rewrite app_nil_r.
  - destruct s as [|c s]; [simpl; now rewrite app_nil_r|].
    simpl in Hlen.
    assert (Hcons : forall x (a b : jsstring), a ++ x :: b = (a ++ [x]) ++ b)
      by (intros; now rewrite <- app_assoc).
    cbn [quote_body].
    destruct (short_escape c) as [e|] eqn:Esc.
    { cbn [app]. rewrite (run_short_escape _ _ _ c) by exact Esc.
      rewrite IH by lia. now rewrite <- Hcons. }
    apply short_escape_none in Esc as [Hq Hb].
    destruct (N.ltb_spec c 32) as [Hlt|Hge].
    { rewrite <- app_assoc, run_UnicodeEscape by lia.
      rewrite IH by lia. now rewrite <- Hcons. }
    assert (Hplain : forall (tl : jsstring) acc',
               run (MString key acc', stk) (c :: tl)
               = run (MString key (acc' ++ [c]), stk) tl).
    { intros tl acc'. cbn [run]. now rewrite step_plain. }
    destruct (is_high c) eqn:Ehigh.
    { unfold is_high in Ehigh. apply andb_true_iff in Ehigh as [Eh1 Eh2].
      apply N.leb_le in Eh1, Eh2.
      destruct s as [|d s'].
      - rewrite run_UnicodeEscape by lia. reflexivity.
      - destruct (is_low d) eqn:Elow.
        + unfold is_low in Elow. apply andb_true_iff in Elow as [El1 El2].
          apply N.leb_le in El1, El2.
          cbn [app]. rewrite Hplain. cbn [run].
          rewrite step_plain by lia.
          simpl in Hlen. rewrite IH by lia.
          now rewrite <- !app_assoc.
        + rewrite <- app_assoc, run_UnicodeEscape by lia.
          rewrite IH by lia. now rewrite <- Hcons. }
    destruct (is_low c) eqn:Elow.
    { unfold is_low in Elow. apply andb_true_iff in Elow as [El1 El2].
      apply N.leb_le in El1, El2.
      rewrite <- app_assoc, run_UnicodeEscape by lia.
      rewrite IH by lia. now rewrite <- Hcons. }
    cbn [app]. rewrite Hplain. rewrite IH by lia. now rewrite <- Hcons.
Qed.

Lemma quote_body_read_back s key acc stk r :
  run (MString key acc, stk) (quote_body s ++ r)
  = run (MString key (acc ++ s), stk) r.
Proof. now apply (quote_body_read_back_aux (length s)). Qed.

(** A quoted string in the place of a value. *)
Lemma QuoteJSONString_value s stk r :
  run (MValue, stk) (QuoteJSONString s ++ r)
  = match reduce (JString s) stk with
    | Ok st => run st r
    | Throw e => Throw e
    end.
Proof.
  unfold QuoteJSONString. cbn [app run step].
  change (is_ws 34) with false. cbv iota.
  unfold start_value. change (34 =? 34) with true. cbv iota.
  rewrite <- app_assoc, quote_body_read_back.
  cbn [app run step]. change (34 =? 34) with true. cbv iota.
  reflexivity.
Qed.

(** A quoted string in the place of a member name. *)
Lemma QuoteJSONString_key s stk r (m : mode) :
  m = MObjFirst \/ m = MObjKey ->
  run (m, stk) (QuoteJSONString s ++ r) = run (MColon, FKey s :: stk) r.
Proof.
  unfold QuoteJSONString.
  intros [-> | ->]; cbn [app run step];
    change (is_ws 34) with false; change (34 =? 125) with false;
    change (34 =? 34) with true; cbv iota;
    rewrite <- app_assoc, quote_body_read_back;
    cbn [app run step]; change (34 =? 34) with true; reflexivity.
Qed.

End RoundTrip.

(** ** Reading back the list of tasks *)

Section TasksRoundTrip.

Implicit Types (t : Task) (l : list Task) (r : jsstring)
  (stk : list frame) (es : list value).

Lemma run_cons_ok (st st' : pstate) (c : codeunit) r :
  step st c = Ok st' -> run st (c :: r) = run st' r.
Proof. intros H. cbn [run]. now rewrite H. Qed.

Ltac literals :=
  repeat match goal with
         | |- context [lit ?s] =>
             let v := eval vm_compute in (lit s) in change (lit s) with v
         end.

Ltac read_unit := erewrite run_cons_ok by reflexivity.
Ltac read_key := rewrite QuoteJSONString_key by (left + right; reflexivity).
Ltac read_string :=
  rewrite QuoteJSONString_value;
  match goal with
  | |- context [reduce ?v ?k] =>
      let st := eval cbn in (reduce v k) in change (reduce v k) with st
  end; cbv iota.

Lemma stringify_task_read_back t es stk r (m : mode) :
  m = MArrFirst \/ m = MValue ->
  run (m, FArr es :: stk) (stringify_task t ++ r)
  = run (MArrNext, FArr (es ++ [task_value t]) :: stk) r.
Proof.
  intros Hm. unfold stringify_task. rewrite <- !app_assoc.
  literals. cbn [app].
  assert (Hopen : step (m, FArr es :: stk) 123
                  = Ok (MObjFirst, FObj [] :: FArr es :: stk))
    by (destruct Hm as [-> | ->]; reflexivity).
  rewrite (run_cons_ok _ _ _ _ Hopen).
  read_key. read_unit. read_string.
  read_unit. read_key. read_unit. read_string.
  read_unit. read_key. read_unit.
  assert (Hbool : forall tail,
    run (MValue, FKey [99; 111; 109; 112; 108; 101; 116; 101; 100]
                 :: FObj [([105; 100], JString (id t));
                          ([116; 101; 120; 116], JString (text t))]
                 :: FArr es :: stk)
        ((if completed t then [116; 114; 117; 101]
          else [102; 97; 108; 115; 101]) ++ tail)
    = run (MObjNext,
           FObj [([105; 100], JString (id t));
                 ([116; 101; 120; 116], JString (text t));
                 ([99; 111; 109; 112; 108; 101; 116; 101; 100],
                  JBool (completed t))]
           :: FArr es :: stk) tail).
  { intros tail. destruct (completed t); cbn [app]; repeat read_unit; reflexivity. }
  rewrite Hbool.
  read_unit. read_key. read_unit. read_string.
  read_unit. reflexivity.
Qed.

Lemma tail_read_back l es stk r :
  run (MArrNext, FArr es :: stk)
      (concat (map (fun t => 44 :: stringify_task t) l) ++ r)
  = run (MArrNext, FArr (es ++ map task_value l) :: stk) r.
Proof.
  revert es; induction l as [|t l IH]; intros es; cbn [map concat app].
  - now rewrite app_nil_r.
  - read_unit. rewrite <- app_assoc.
    rewrite stringify_task_read_back by (right; reflexivity).
    rewrite IH. now rewrite <- app_assoc.
Qed.

Lemma join_comma_cons (p : jsstring) (ps : list jsstring) :
  join_comma (p :: ps) = p ++ concat (map (fun q => 44 :: q) ps).
Proof.
  revert p; induction ps as [|q ps IH]; intros p.
  - simpl. now rewrite app_nil_r.
  - change (join_comma (p :: q :: ps)) with (p ++ 44 :: join_comma (q :: ps)).
    rewrite IH. reflexivity.
Qed.

Lemma stringify_run l :
  run (MValue, []) (stringify l) = Ok (MDone (tasks_value l), []).
Proof.
  unfold stringify, tasks_value. literals. cbn [app]. read_unit.
  destruct l as [|t l].
  - reflexivity.
  - cbn [map]. rewrite join_comma_cons, map_map, <- app_assoc.
    rewrite stringify_task_read_back by (left; reflexivity).
    rewrite tail_read_back. reflexivity.
Qed.

Lemma task_value_inj t t' : task_value t = task_value t' -> t = t'.
Proof.
  destruct t, t'; unfold task_value; simpl. intros H.
  injection H as -> -> -> ->. reflexivity.
Qed.

Lemma tasks_value_inj l l' : tasks_value l = tasks_value l' -> l = l'.
Proof.
  unfold tasks_value. intros H. injection H as H.
  revert l' H; induction l as [|t l IH]; intros [|t' l'] H; simpl in H;
    try discriminate; [reflexivity|].
  apply (f_equal (@tl _)) in H as Hl. apply (f_equal (@hd_error _)) in H as Ht.
  cbn [tl hd_error map] in Hl, Ht.
  assert (Hv : task_value t = task_value t') by congruence.
  f_equal; [now apply task_value_inj|now apply IH].
Qed.

End TasksRoundTrip.

(** ** Invariants along a run of events *)

Section Runs.

Implicit Types (c : Component) (e : Event) (es : list Event) (s : State).

Lemma next_keeps_distinct_ids e s :
  match e with
  | Add uuid _ => ~ In uuid (ids (todos s))
  | _ => True
  end ->
  NoDup (ids (todos s)) -> NoDup (ids (todos (next e s))).
Proof.
  intros Hfresh Hnd. rewrite next_todos.
  destruct e as [v|v|uuid now|i|i]; try exact Hnd.
  - destruct (truthy (trim (inputValue s))); [|exact Hnd].
    unfold ids. rewrite map_app. cbn [map id].
    apply NoDup_app; repeat split; try exact Hnd.
    + constructor; [intros []|constructor].
    + intros x Hx [<-|[]]. now apply Hfresh.
  - now rewrite toggleTodo_ids.
  - rewrite deleteTodo_ids. now apply NoDup_filter.
Qed.

Lemma next_keeps_distinct_ids_when_called e s :
  match e with
  | Add uuid _ =>
      truthy (trim (inputValue s)) = true -> ~ In uuid (ids (todos s))
  | _ => True
  end ->
  NoDup (ids (todos s)) -> NoDup (ids (todos (next e s))).
Proof.
  intros Hfresh Hnd.
  destruct e as [v|v|uuid now|i|i];
    try (now apply next_keeps_distinct_ids).
  destruct (truthy (trim (inputValue s))) eqn:E.
  - apply next_keeps_distinct_ids; [now apply Hfresh|exact Hnd].
  - rewrite next_todos, E. exact Hnd.
Qed.

Lemma next_keeps_dates e s :
  Forall (fun t => date t <> []) (todos s) ->
  Forall (fun t => date t <> []) (todos (next e s)).
Proof.
  intros H. rewrite next_todos.
  destruct e as [v|v|uuid now|i|i]; try exact H.
  - destruct (truthy (trim (inputValue s))); [|exact H].
    apply Forall_app; split; [exact H|].
    constructor; [|constructor]. apply date_or_today_nonempty.
  - unfold toggleTodo. apply Forall_map.
    eapply Forall_impl; [|exact H].
    intros t Ht. now destruct (JS.eqb (id t) i).
  - unfold deleteTodo. apply Forall_forall. intros t Ht.
    apply filter_In in Ht as [Ht _].
    now apply (proj1 (Forall_forall _ _) H).
Qed.

Lemma run_events_cons c e es :
  run_events c (e :: es) = run_events (dispatch e c) es.
Proof. reflexivity. Qed.

(** The slot holds the serialization of the list of the current state. *)
Definition synced (c : Component) : Prop :=
  slot c = Some (stringify (todos (state c))).

Lemma mounted_synced s stored : synced (mounted s stored).
Proof. reflexivity. Qed.

Lemma dispatch_synced e c : synced c -> synced (dispatch e c).
Proof.
  unfold synced, dispatch. intros H.
  destruct e as [v|v|uuid now|i|i]; cbn [handle setTodos]; try exact H;
    try reflexivity.
  unfold addTodo. destruct (negb (truthy (trim (inputValue (state c)))));
    [exact H|reflexivity].
Qed.

Lemma run_events_synced es c : synced c -> synced (run_events c es).
Proof.
  revert c; induction es as [|e es IH]; intros c H; [exact H|].
  rewrite run_events_cons. apply IH. now apply dispatch_synced.
Qed.

Lemma trimStart_blank (s : jsstring) :
  forallb is_space s = true -> trimStart s = [].
Proof.
  induction s as [|x s IH]; simpl; [reflexivity|].
  intros H. apply andb_true_iff in H as [Hx Hs]. rewrite Hx. now apply IH.
Qed.

(** A string of white space only trims to the empty string. *)
Lemma trim_blank (s : jsstring) : forallb is_space s = true -> trim s = [].
Proof. intros H. unfold trim. now rewrite trimStart_blank. Qed.

(** The list after [addTodo] with text that does not trim to the empty
    string. *)
Lemma next_add_nonblank (uuid : jsstring) (now : Date) (s : State) :
  trim (inputValue s) <> [] ->
  todos (next (Add uuid now) s)
  = todos s
    ++ [ {| id := uuid; text := trim (inputValue s); completed := false;
            date := if truthy (inputDate s) then inputDate s
                    else isoDate now |} ].
Proof.
  intros H. rewrite next_todos, date_or_today_spec.
  destruct (trim (inputValue s)); [congruence|reflexivity].
Qed.

Lemma stringify_truthy (l : list Task) : truthy (stringify l) = true.
Proof. reflexivity. Qed.

End Runs.

(** ** The properties of the specification *)

(** A fixed clock reading and two tasks for the examples. *)
Definition noon : Date :=
  {| year := 2025; month := 6; day := 1;
     hours := 12; minutes := 0; seconds := 0; milliseconds := 0 |}.

Definition task_a : Task :=
  {| id := lit "a"; text := lit "Task A"; completed := false;
     date := lit "2025-06-01" |}.

Definition task_b : Task :=
  {| id := lit "b"; text := lit "Task B"; completed := true;
     date := lit "2025-06-02" |}.

(** A task whose id has the shape of what [crypto.randomUUID()] returns,
    and a clock reading a little after four in the morning, UTC. *)
Definition task_u : Task :=
  {| id := lit "123e4567-e89b-42d3-a456-426614174000"; text := lit "Task U";
     completed := false; date := lit "2025-06-01" |}.

Definition early_utc : Date :=
  {| year := 2025; month := 6; day := 2;
     hours := 4; minutes := 30; seconds := 0; milliseconds := 0 |}.

Definition typing (v d : jsstring) (l : list Task) : State :=
  {| todos := l; inputValue := v; inputDate := d |}.

Definition component (s : State) : Component :=
  {| state := s; slot := None; writes := [] |}.

(** C1, as the specification states it, fails: with the text [not json]
    in the slot the initializer of [useState] throws the [SyntaxError] of
    [JSON.parse]; it does not start from the empty list. *)
Lemma initTodos_malformed_throws :
  initTodos (Some (lit "not json")) = Throw SyntaxError
  /\ initTodos (Some (lit "not json")) <> Ok (tasks_value []).
Proof. split; [reflexivity|discriminate]. Qed.

(** C1, amended: an absent slot and a slot holding the empty string both
    give the empty list and nothing is thrown; any other text is handed to
    [JSON.parse], whose result, an exception included, is the result of
    the initializer; in particular a text whose first code unit is neither
    white space nor the start of a JSON value throws [SyntaxError]. *)
Theorem initTodos_absent_or_empty :
  initTodos None = Ok (tasks_value [])
  /\ initTodos (Some []) = Ok (tasks_value [])
  /\ (forall text, text <> [] -> initTodos (Some text) = parse text)
  /\ (forall c r, JSON.is_ws c = false -> value_start c = false ->
        initTodos (Some (c :: r)) = Throw SyntaxError).
Proof.
  repeat split.
  - intros [|c r] H; [contradiction|reflexivity].
  - intros c r Hws Hv. cbn [initTodos truthy]. unfold parse. cbn [run step].
    rewrite Hws. unfold start_value. unfold value_start in Hv.
    repeat (apply orb_false_iff in Hv as [Hv ?]).
    destruct (N.eqb_spec c 48) as [->|_]; [discriminate|].
    repeat match goal with H : _ = false |- _ => rewrite H; clear H end.
    reflexivity.
Qed.

(** C2: an event that changes the list (Add with text that does not trim
    to the empty string, Toggle, Delete) appends exactly one value to the
    log of writes; that value is the serialization of the list as it is
    after the event, and it is what the slot holds afterwards. *)
Theorem mutation_persists_once (e : Event) (c : Component) :
  mutating e (state c) = true ->
  writes (dispatch e c)
  = writes c ++ [stringify (todos (state (dispatch e c)))]
  /\ slot (dispatch e c) = Some (stringify (todos (state (dispatch e c))))
  /\ todos (state (dispatch e c))
     = match e with
       | Add uuid now =>
           todos (state c)
           ++ [ {| id := uuid; text := trim (inputValue (state c));
                   completed := false;
                   date := date_or_today (inputDate (state c)) now |} ]
       | Toggle i => toggleTodo i (todos (state c))
       | Delete i => deleteTodo i (todos (state c))
       | _ => todos (state c)
       end.
Proof.
  intros Hm. unfold dispatch.
  destruct e as [v|v|uuid now|i|i]; cbn [mutating] in Hm; try discriminate;
    cbn [handle setTodos]; try (repeat split; reflexivity).
  unfold addTodo. rewrite Hm. cbn [negb]. repeat split; reflexivity.
Qed.

Lemma mutation_persists_once_witness :
  mutating (Add (lit "id-1") noon)
    (state (component (typing (lit " Buy milk ") [] [task_a]))) = true
  /\ writes (dispatch (Add (lit "id-1") noon)
               (component (typing (lit " Buy milk ") [] [task_a])))
     = [stringify
          [task_a;
           {| id := lit "id-1"; text := lit "Buy milk"; completed := false;
              date := lit "2025-06-01" |}]].
Proof.
  split; [reflexivity|].
  refine (eq_trans
            (proj1 (mutation_persists_once (Add (lit "id-1") noon)
               (component (typing (lit " Buy milk ") [] [task_a])) _)) _);
    reflexivity.
Defined.

(** C3, as the specification states it, fails.  The id of the new task
    is whatever [crypto.randomUUID()] returned; [addTodo] does not compare
    it with the ids of the list, so when the identifier returned is the id
    of a task of the list the new task is appended all the same and two
    tasks carry one id.  And with no date typed the task gets the date
    part of [toISOString()], the date in UTC: at 04:30 UTC on the second
    of June it is the second, while the calendar of a user five hours
    west of UTC still shows the first. *)
Lemma addTodo_id_not_fresh_date_not_local :
  trim (inputValue (typing (lit "Task B") [] [task_u])) <> []
  /\ todos (next (Add (id task_u) early_utc)
                 (typing (lit "Task B") [] [task_u]))
     = [task_u;
        {| id := id task_u; text := lit "Task B"; completed := false;
           date := lit "2025-06-02" |}]
  /\ NoDup (ids [task_u])
  /\ ~ NoDup (ids (todos (next (Add (id task_u) early_utc)
                            (typing (lit "Task B") [] [task_u]))))
  /\ spec_calendar_date (-300) early_utc = lit "2025-06-01".
Proof.
  split; [vm_compute; discriminate|].
  split; [reflexivity|].
  split; [constructor; [intros []|constructor]|].
  split; [|reflexivity].
  change (ids (todos (next (Add (id task_u) early_utc)
                        (typing (lit "Task B") [] [task_u]))))
    with [id task_u; id task_u].
  intros H. inversion H as [|x l Hnotin _]. apply Hnotin. now left.
Qed.

(** C3, amended: when the text typed does not trim to the empty string,
    [addTodo] makes the list one longer and puts at its end the task whose
    text is the trimmed text, which is not completed, whose id is the
    identifier that [crypto.randomUUID()] returned, whatever it is, and
    whose date is the date typed or, when none was typed, the date part of
    the clock's [toISOString()], the calendar date in UTC.  On a list with
    pairwise distinct ids, the ids are pairwise distinct afterwards
    exactly when the identifier returned is not already an id of the
    list. *)
Theorem addTodo_appends (uuid : jsstring) (now : Date) (s : State) :
  trim (inputValue s) <> [] ->
  todos (next (Add uuid now) s)
  = todos s
    ++ [ {| id := uuid; text := trim (inputValue s); completed := false;
            date := if truthy (inputDate s) then inputDate s
                    else isoDate now |} ]
  /\ length (todos (next (Add uuid now) s)) = S (length (todos s))
  /\ (NoDup (ids (todos s)) ->
      (NoDup (ids (todos (next (Add uuid now) s)))
       <-> ~ In uuid (ids (todos s)))).
Proof.
  intros H. pose proof (next_add_nonblank uuid now s H) as E.
  repeat split.
  - exact E.
  - rewrite E, length_app. simpl. lia.
  - rewrite E. unfold ids. rewrite map_app. cbn [map id].
    intros Hnd' Hin. apply NoDup_remove_2 in Hnd'.
    apply Hnd'. now rewrite app_nil_r.
  - intros Hfresh.
    now apply (next_keeps_distinct_ids (Add uuid now)).
Qed.

Lemma addTodo_appends_witness :
  trim (inputValue (typing (lit "  Task B ") [] [task_a])) <> []
  /\ todos (next (Add (lit "b") noon) (typing (lit "  Task B ") [] [task_a]))
     = [task_a;
        {| id := lit "b"; text := lit "Task B"; completed := false;
           date := lit "2025-06-01" |}].
Proof.
  assert (H : trim (inputValue (typing (lit "  Task B ") [] [task_a])) <> [])
    by (vm_compute; discriminate).
  split; [exact H|].
  exact (proj1 (addTodo_appends (lit "b") noon
                  (typing (lit "  Task B ") [] [task_a]) H)).
Defined.

Lemma toggleTodo_absent (i : jsstring) (l : list Task) :
  ~ In i (ids l) -> toggleTodo i l = l.
Proof.
  unfold ids, toggleTodo. induction l as [|t l IH]; simpl; intros H; [reflexivity|].
  destruct (JS.eqb (id t) i) eqn:E.
  - apply jseqb_eq in E. tauto.
  - f_equal. apply IH. tauto.
Qed.

Lemma toggleTodo_split (i : jsstring) (l : list Task) :
  NoDup (ids l) -> In i (ids l) ->
  exists l1 t l2,
    l = l1 ++ t :: l2 /\ id t = i /\ toggleTodo i l = l1 ++ flip t :: l2.
Proof.
  unfold ids. induction l as [|t l IH]; simpl; intros Hnd Hin; [contradiction|].
  inversion Hnd as [|? ? Hnotin Hnd']; subst.
  destruct (JS.eqb (id t) i) eqn:E.
  - apply jseqb_eq in E. subst i.
    exists [], t, l. repeat split. simpl.
    now rewrite toggleTodo_absent.
  - apply jseqb_neq in E.
    destruct Hin as [Hin|Hin]; [contradiction|].
    destruct (IH Hnd' Hin) as (l1 & t' & l2 & Hl & Hid & Htog).
    exists (t :: l1), t', l2. repeat split; auto.
    + simpl. now f_equal.
    + simpl. f_equal. exact Htog.
Qed.

(** C4: for an id that is in the list, [toggleTodo] keeps the length and
    the order, replaces each task carrying that id by the same task with
    [completed] negated and the other fields as they were, and leaves every
    task with another id as it is; there is a task that is flipped; when
    the ids are pairwise distinct it is the only one; toggling twice gives
    the list back. *)
Theorem toggleTodo_flips_that_task (i : jsstring) (l : list Task) :
  In i (ids l) ->
  length (toggleTodo i l) = length l
  /\ (forall k t, nth_error l k = Some t ->
        nth_error (toggleTodo i l) k
        = Some (if JS.eqb (id t) i
                then {| id := id t; text := text t;
                        completed := negb (completed t); date := date t |}
                else t))
  /\ (exists k t, nth_error l k = Some t /\ id t = i
        /\ nth_error (toggleTodo i l) k = Some (flip t))
  /\ (NoDup (ids l) ->
        exists l1 t l2,
          l = l1 ++ t :: l2 /\ id t = i
          /\ toggleTodo i l = l1 ++ flip t :: l2)
  /\ toggleTodo i (toggleTodo i l) = l.
Proof.
  intros Hin. repeat split.
  - apply toggleTodo_length.
  - intros k t Hk. now apply toggleTodo_nth.
  - unfold ids in Hin. apply in_map_iff in Hin as (t & Hid & Ht).
    apply In_nth_error in Ht as [k Hk].
    exists k, t. repeat split; auto.
    rewrite (toggleTodo_nth _ _ _ _ Hk).
    apply jseqb_eq in Hid. now rewrite Hid.
  - intros Hnd. now apply toggleTodo_split.
  - apply toggleTodo_involutive.
Qed.

Lemma toggleTodo_flips_that_task_witness :
  In (lit "b") (ids [task_a; task_b])
  /\ toggleTodo (lit "b") (toggleTodo (lit "b") [task_a; task_b])
     = [task_a; task_b].
Proof.
  assert (H : In (lit "b") (ids [task_a; task_b]))
    by (right; left; reflexivity).
  split; [exact H|].
  exact (proj2 (proj2 (proj2 (proj2
           (toggleTodo_flips_that_task (lit "b") [task_a; task_b] H))))).
Defined.

(** C5: on a list whose ids are pairwise distinct, [deleteTodo] with an id
    of the list removes the one task carrying it: the list is one shorter,
    no task with that id is left, and the tasks before and after it follow
    each other in their old order; with an id that is not in the list the
    list is returned as it is. *)
Theorem deleteTodo_removes_that_task (i : jsstring) (l : list Task) :
  NoDup (ids l) ->
  (In i (ids l) ->
     exists l1 t l2,
       l = l1 ++ t :: l2 /\ id t = i /\ deleteTodo i l = l1 ++ l2
       /\ S (length (deleteTodo i l)) = length l
       /\ ~ In i (ids (deleteTodo i l)))
  /\ (~ In i (ids l) -> deleteTodo i l = l).
Proof.
  intros Hnd. split.
  - intros Hin.
    destruct (deleteTodo_split i l Hnd Hin) as (l1 & t & l2 & Hl & Hid & Hdel).
    exists l1, t, l2. repeat split; auto.
    + rewrite Hdel, Hl, !length_app. simpl. lia.
    + apply deleteTodo_no_id.
  - apply deleteTodo_absent.
Qed.

Lemma deleteTodo_removes_that_task_witness :
  NoDup (ids [task_a; task_b])
  /\ (exists l1 t l2,
        [task_a; task_b] = l1 ++ t :: l2 /\ id t = lit "a"
        /\ deleteTodo (lit "a") [task_a; task_b] = l1 ++ l2
        /\ S (length (deleteTodo (lit "a") [task_a; task_b]))
           = length [task_a; task_b]
        /\ ~ In (lit "a") (ids (deleteTodo (lit "a") [task_a; task_b])))
  /\ deleteTodo (lit "c") [task_a; task_b] = [task_a; task_b].
Proof.
  assert (H : NoDup (ids [task_a; task_b])).
  { constructor; [simpl; intros [E|[]]; discriminate E|].
    constructor; [simpl; intros []|constructor]. }
  split; [exact H|]. split.
  - apply (proj1 (deleteTodo_removes_that_task (lit "a") [task_a; task_b] H)).
    left; reflexivity.
  - apply (proj2 (deleteTodo_removes_that_task (lit "c") [task_a; task_b] H)).
    simpl. intros [E|[E|[]]]; discriminate E.
Defined.

(** C6: when the text typed trims to the empty string, [addTodo] calls no
    setter: the component, its list, its inputs, the slot and the log of
    writes are what they were, and nothing is thrown. *)
Theorem addTodo_blank_is_noop (uuid : jsstring) (now : Date) (c : Component) :
  trim (inputValue (state c)) = [] ->
  addTodo uuid now (state c) = no_update
  /\ dispatch (Add uuid now) c = c.
Proof.
  intros H. split; [now apply addTodo_blank|].
  unfold dispatch. cbn [handle]. rewrite addTodo_blank by exact H.
  cbn [setTodos no_update]. rewrite commit_no_update. now destruct c.
Qed.

Lemma addTodo_blank_is_noop_witness :
  trim (inputValue (state (component (typing (lit "   ") [] [task_a])))) = []
  /\ dispatch (Add (lit "b") noon) (component (typing (lit "   ") [] [task_a]))
     = component (typing (lit "   ") [] [task_a]).
Proof.
  assert (H : trim (inputValue
                (state (component (typing (lit "   ") [] [task_a])))) = [])
    by reflexivity.
  split; [exact H|].
  exact (proj2 (addTodo_blank_is_noop (lit "b") noon
                  (component (typing (lit "   ") [] [task_a])) H)).
Defined.

(** C7, as the specification states it, fails: [addTodo] takes the
    identifier [crypto.randomUUID()] returns without comparing it with the
    ids of the list.  From the list of one task, typing a text and an Add
    for which the identifier returned is the id of that task gives a list
    of two tasks with one id. *)
Lemma repeated_uuid_breaks_distinct_ids :
  NoDup (ids (todos (state (component (typing [] [] [task_u])))))
  /\ ~ NoDup (ids (todos (state
         (run_events (component (typing [] [] [task_u]))
            [ChangeText (lit "Task B"); Add (id task_u) noon])))).
Proof.
  split; [constructor; [intros []|constructor]|].
  change (ids (todos (state
            (run_events (component (typing [] [] [task_u]))
               [ChangeText (lit "Task B"); Add (id task_u) noon]))))
    with [id task_u; id task_u].
  intros H. inversion H as [|x l Hnotin _]. apply Hnotin. now left.
Qed.

(** C7, amended: from a list whose ids are pairwise distinct, after any
    finite sequence of events (Add, Toggle, Delete, and typing in between)
    the ids are pairwise distinct, provided each identifier that
    [crypto.randomUUID()] returns, at an Add whose text does not trim to
    the empty string, is not an id of the list at that moment.  Toggle
    and Delete keep the ids distinct without any condition. *)
Theorem ids_stay_distinct (c : Component) (es : list Event) :
  NoDup (ids (todos (state c))) ->
  generator_fresh (state c) es ->
  NoDup (ids (todos (state (run_events c es)))).
Proof.
  revert c; induction es as [|e es IH]; intros c Hnd Hfresh; [exact Hnd|].
  rewrite run_events_cons. destruct Hfresh as [He Hes].
  apply IH; rewrite dispatch_state.
  - now apply next_keeps_distinct_ids_when_called.
  - exact Hes.
Qed.

Lemma ids_stay_distinct_witness :
  NoDup (ids (todos (state
    (run_events (component (typing [] [] []))
       [ChangeText (lit "Task A"); Add (lit "a") noon; Toggle (lit "a");
        Add (lit "a") noon;
        ChangeText (lit "Task B"); Add (lit "b") noon; Delete (lit "a")])))).
Proof.
  apply ids_stay_distinct.
  - constructor.
  - cbn [generator_fresh]. repeat split;
      try (intros E; discriminate E);
      intros _ H; vm_compute in H; repeat destruct H as [H|H];
      try discriminate H; exact H.
Defined.

(** C8: for every list of tasks, [JSON.parse] of its [JSON.stringify] is
    the array of the same tasks in the same order, each with its id, text,
    completed flag and date; so is what the initializer reads from a slot
    holding that serialization; and two lists with the same array are the
    same list. *)
Theorem stringify_parse_roundtrip (l : list Task) :
  parse (stringify l) = Ok (tasks_value l)
  /\ initTodos (Some (stringify l)) = Ok (tasks_value l)
  /\ (forall l', tasks_value l' = tasks_value l -> l' = l).
Proof.
  assert (H : parse (stringify l) = Ok (tasks_value l)).
  { unfold parse. now rewrite stringify_run. }
  repeat split.
  - exact H.
  - cbn [initTodos]. now rewrite stringify_truthy.
  - intros l'. apply tasks_value_inj.
Qed.

(** C9: [deleteTodo] drops every task whose id is the given one, not only
    the first: the list gets shorter by the number of tasks carrying that
    id, and what is left is exactly the tasks with another id. *)
Theorem deleteTodo_removes_every_match (i : jsstring) (l : list Task) :
  (length (deleteTodo i l) + length (matching i l) = length l)%nat
  /\ (forall t, In t (deleteTodo i l) <-> In t l /\ id t <> i)
  /\ (forall t, In t (matching i l) <-> In t l /\ id t = i).
Proof.
  split; [apply deleteTodo_length|].
  split; intros t; unfold deleteTodo, matching; rewrite filter_In.
  - rewrite negb_true_iff, jseqb_neq. reflexivity.
  - rewrite jseqb_eq. reflexivity.
Qed.

(** With an id carried by two tasks, both go. *)
Example deleteTodo_duplicates :
  deleteTodo (lit "a") [task_a; task_b; task_a] = [task_b].
Proof. reflexivity. Qed.

(** C10: with no date typed (the date input holds the empty string) the
    new task takes the date part of the clock's ISO string, which is never
    empty; so the date of a task that [addTodo] creates is never empty,
    every event keeps the dates of the list non-empty, and a list grown
    from the empty one holds no task with an empty date. *)
Theorem stored_dates_nonempty :
  (forall uuid now v l,
     trim v <> [] ->
     todos (next (Add uuid now) (typing v [] l))
     = l ++ [ {| id := uuid; text := trim v; completed := false;
                 date := isoDate now |} ])
  /\ (forall now, isoDate now <> [])
  /\ (forall c es,
        Forall (fun t => date t <> []) (todos (state c)) ->
        Forall (fun t => date t <> []) (todos (state (run_events c es))))
  /\ (forall s stored es,
        todos s = [] ->
        Forall (fun t => date t <> [])
               (todos (state (run_events (mounted s stored) es)))).
Proof.
  assert (Hrun : forall es c,
             Forall (fun t => date t <> []) (todos (state c)) ->
             Forall (fun t => date t <> []) (todos (state (run_events c es)))).
  { induction es as [|e es IH]; intros c H; [exact H|].
    rewrite run_events_cons. apply IH. rewrite dispatch_state.
    now apply next_keeps_dates. }
  repeat split.
  - intros uuid now v l Hv.
    exact (next_add_nonblank uuid now (typing v [] l) Hv).
  - apply isoDate_nonempty.
  - intros c es. apply Hrun.
  - intros s stored es Hs. apply Hrun. cbn [mounted persist state].
    rewrite Hs. constructor.
Qed.

(** The scenarios of the specification. *)
Example scenario_buy_milk :
  let c0 := mounted (typing [] [] []) None in
  let c1 := run_events c0 [ChangeText (lit "Buy milk"); Add (lit "m") noon] in
  let c2 := dispatch (Toggle (lit "m")) c1 in
  let c3 := dispatch (Delete (lit "m")) c2 in
  length (todos (state c1)) = 1%nat /\ remaining (todos (state c1)) = 1%nat
  /\ remaining (todos (state c2)) = 0%nat
  /\ length (todos (state c3)) = 0%nat
  /\ slot c3 = Some (lit "[]") /\ length (writes c3) = 4%nat.
Proof. repeat split. Qed.

Example scenario_insertion_order :
  map text
    (todos (state
       (run_events (mounted (typing [] [] []) None)
          [ChangeText (lit "Task A"); Add (lit "a") noon;
           ChangeText (lit "Task B"); Add (lit "b") noon])))
  = [lit "Task A"; lit "Task B"].
Proof. reflexivity. Qed.

(** ** Further properties of the component *)

Section TrimFacts.

Implicit Types (s u : jsstring) (c : codeunit).

Lemma trimStart_decompose s :
  exists ws, s = ws ++ trimStart s /\ forallb is_space ws = true.
Proof.
  induction s as [|c s (ws & E & Hws)]; [now exists []|].
  cbn [trimStart]. destruct (is_space c) eqn:Ec.
  - exists (c :: ws). split; [cbn [app]; now f_equal|].
    cbn [forallb]. now rewrite Ec.
  - now exists [].
Qed.

Lemma trimStart_head s c u : trimStart s = c :: u -> is_space c = false.
Proof.
  induction s as [|x s IH]; cbn [trimStart]; [discriminate|].
  destruct (is_space x) eqn:Ex; [exact IH|].
  intros [= <- _]. exact Ex.
Qed.

Lemma trimStart_fixed s c u :
  s = c :: u -> is_space c = false -> trimStart s = s.
Proof. intros -> H. cbn [trimStart]. now rewrite H. Qed.

Lemma last_rev_cons (u : jsstring) c d : last (rev (c :: u)) d = c.
Proof. cbn [rev]. apply last_last. Qed.

Lemma trimEnd_decompose s :
  exists ws, s = trimEnd s ++ ws /\ forallb is_space ws = true.
Proof.
  unfold trimEnd. destruct (trimStart_decompose (rev s)) as (ws & E & Hws).
  exists (rev ws). split.
  - rewrite <- rev_app_distr, <- E. now rewrite rev_involutive.
  - rewrite forallb_forall in *. intros x Hx. apply Hws. now apply in_rev.
Qed.

Lemma trim_trimmed s : trim s <> [] -> trimmed (trim s) = true.
Proof.
  unfold trim. intros Hne.
  destruct (trimEnd_decompose (trimStart s)) as (ws & E & _).
  destruct (trimEnd (trimStart s)) as [|c v] eqn:Ev; [congruence|].
  cbn [trimmed]. apply andb_true_iff. split; apply negb_true_iff.
  - rewrite E in *. cbn [app] in E. now apply (trimStart_head s c (v ++ ws)).
  - unfold trimEnd in Ev.
    destruct (trimStart (rev (trimStart s))) as [|d w] eqn:Ew;
      [discriminate|].
    rewrite <- Ev, last_rev_cons. now apply (trimStart_head _ _ _ Ew).
Qed.

Lemma trimmed_trim s : trimmed s = true -> trim s = s.
Proof.
  destruct s as [|c u]; [discriminate|]. cbn [trimmed]. intros H.
  apply andb_true_iff in H as [Hc Hl]. apply negb_true_iff in Hc, Hl.
  unfold trim. rewrite (trimStart_fixed (c :: u) c u eq_refl Hc).
  unfold trimEnd.
  destruct (rev (c :: u)) as [|d w] eqn:Er.
  - apply (f_equal (@length _)) in Er. rewrite length_rev in Er. discriminate.
  - assert (Hd : d = last (c :: u) c).
    { rewrite <- (rev_involutive (c :: u)), Er. cbn [rev]. now rewrite last_last. }
    rewrite (trimStart_fixed (d :: w) d w eq_refl) by (now rewrite Hd).
    now rewrite <- Er, rev_involutive.
Qed.

End TrimFacts.

Section MoreHandlers.

Implicit Types (l : list Task) (t : Task) (i j uuid : jsstring)
  (s : State) (c : Component) (e : Event) (es : list Event) (now : Date).

Lemma dispatch_add_blank uuid now c :
  trim (inputValue (state c)) = [] -> dispatch (Add uuid now) c = c.
Proof.
  intros H. unfold dispatch. cbn [handle]. rewrite addTodo_blank by exact H.
  cbn [setTodos no_update]. rewrite commit_no_update. now destruct c.
Qed.

Lemma remaining_app l l' :
  remaining (l ++ l') = (remaining l + remaining l')%nat.
Proof. unfold remaining. now rewrite filter_app, length_app. Qed.

Lemma remaining_one t :
  remaining [t] = if completed t then 0%nat else 1%nat.
Proof. unfold remaining. cbn [filter]. now destruct (completed t). Qed.

Lemma same_id_same_task l t t' :
  NoDup (ids l) -> In t l -> In t' l -> id t = id t' -> t = t'.
Proof.
  unfold ids. induction l as [|x l IH]; cbn [map]; intros Hnd Ht Ht' E;
    [destruct Ht|].
  inversion Hnd as [|? ? Hx Hnd']; subst.
  destruct Ht as [<-|Ht], Ht' as [<-|Ht']; auto.
  - exfalso. apply Hx. rewrite E. now apply in_map.
  - exfalso. apply Hx. rewrite <- E. now apply in_map.
Qed.

Lemma writes_dispatch e c :
  writes (dispatch e c)
  = if mutating e (state c)
    then writes c ++ [stringify (todos (next e (state c)))]
    else writes c.
Proof.
  unfold dispatch, next.
  destruct e as [v|v|uuid now|i|i]; cbn [handle mutating setTodos];
    try reflexivity.
  unfold addTodo. now destruct (truthy (trim (inputValue (state c)))).
Qed.

End MoreHandlers.

(** X1: a second Add right after an Add changes nothing, whatever was
    typed: an Add that appends a task also empties the text input, so the
    next one finds nothing to add, and an Add that found nothing to add
    left everything as it was. *)
Theorem add_twice_adds_once
  (uuid1 uuid2 : jsstring) (now1 now2 : Date) (c : Component) :
  dispatch (Add uuid2 now2) (dispatch (Add uuid1 now1) c)
  = dispatch (Add uuid1 now1) c.
Proof.
  destruct (trim (inputValue (state c))) as [|x r] eqn:E.
  - rewrite (dispatch_add_blank uuid1 now1 c E).
    now apply dispatch_add_blank.
  - apply dispatch_add_blank. rewrite dispatch_state.
    unfold next. cbn [handle]. unfold addTodo. rewrite E. reflexivity.
Qed.

(** X2: from the first render on, after any sequence of events the slot
    holds the serialization of the list of the current state, the last
    entry of the log of writes is that serialization, and the initializer
    run on that slot (the next page load) throws nothing and returns the
    array of exactly the current tasks. *)
Theorem reload_restores_list (s : State) (stored : option jsstring)
  (es : list Event) :
  slot (run_events (mounted s stored) es)
  = Some (stringify (todos (state (run_events (mounted s stored) es))))
  /\ last (writes (run_events (mounted s stored) es)) []
     = stringify (todos (state (run_events (mounted s stored) es)))
  /\ initTodos (slot (run_events (mounted s stored) es))
     = Ok (tasks_value (todos (state (run_events (mounted s stored) es)))).
Proof.
  assert (Hinv : forall es c,
    slot c = Some (stringify (todos (state c)))
    /\ last (writes c) [] = stringify (todos (state c)) ->
    slot (run_events c es) = Some (stringify (todos (state (run_events c es))))
    /\ last (writes (run_events c es)) []
       = stringify (todos (state (run_events c es)))).
  { clear. induction es as [|e es IH]; intros c H; [exact H|].
    rewrite run_events_cons. apply IH. destruct H as [Hs Hw]. split.
    - now apply dispatch_synced.
    - rewrite writes_dispatch, dispatch_state.
      destruct (mutating e (state c)) eqn:Em; [apply last_last|].
      rewrite Hw. f_equal. rewrite next_todos.
      destruct e as [v|v|uuid now|i|i]; cbn [mutating] in Em;
        try discriminate; try reflexivity.
      now rewrite Em. }
  destruct (Hinv es (mounted s stored)) as [Hs Hw].
  { split; [reflexivity|]. unfold mounted, persist. cbn [writes state app].
    reflexivity. }
  repeat split; [exact Hs|exact Hw|].
  rewrite Hs. cbn [initTodos]. rewrite stringify_truthy.
  unfold parse. now rewrite stringify_run.
Qed.

(** X3: the effect writes once per event whose handler calls [setTodos]
    and never otherwise: over any run the log of writes grows by the
    number of such events, and typing in the two inputs touches neither
    the list, nor the slot, nor the log. *)
Theorem one_write_per_mutation (c : Component) (es : list Event) :
  length (writes (run_events c es))
  = (length (writes c) + mutations (state c) es)%nat
  /\ (forall v, todos (state (dispatch (ChangeText v) c)) = todos (state c)
        /\ slot (dispatch (ChangeText v) c) = slot c
        /\ writes (dispatch (ChangeText v) c) = writes c)
  /\ (forall v, todos (state (dispatch (ChangeDate v) c)) = todos (state c)
        /\ slot (dispatch (ChangeDate v) c) = slot c
        /\ writes (dispatch (ChangeDate v) c) = writes c).
Proof.
  split; [|split; intros v; repeat split].
  revert c; induction es as [|e es IH]; intros c; cbn [mutations].
  - cbn [run_events fold_left]. lia.
  - rewrite run_events_cons, IH, writes_dispatch, dispatch_state.
    destruct (mutating e (state c)); [rewrite length_app; simpl|]; lia.
Qed.

(** X4: an Add with text that does not trim to the empty string makes the
    counter of tasks left one larger (the new task is not completed). *)
Theorem add_counts_one_more (uuid : jsstring) (now : Date) (s : State) :
  trim (inputValue s) <> [] ->
  remaining (todos (next (Add uuid now) s)) = S (remaining (todos s)).
Proof.
  intros H. rewrite (next_add_nonblank uuid now s H), remaining_app.
  rewrite remaining_one. cbn [completed]. lia.
Qed.

Lemma add_counts_one_more_witness :
  trim (inputValue (typing (lit "Task C") [] [task_a; task_b])) <> []
  /\ remaining (todos (next (Add (lit "c") noon)
                         (typing (lit "Task C") [] [task_a; task_b])))
     = 2%nat.
Proof.
  assert (H : trim (inputValue (typing (lit "Task C") [] [task_a; task_b]))
              <> []) by (vm_compute; discriminate).
  split; [exact H|].
  exact (add_counts_one_more (lit "c") noon
           (typing (lit "Task C") [] [task_a; task_b]) H).
Defined.

(** X5: on a list with pairwise distinct ids, toggling a task of the list
    moves the counter of tasks left by exactly one: down when the task was
    not completed, up when it was. *)
Theorem toggle_moves_counter_by_one (l : list Task) (t : Task) :
  NoDup (ids l) -> In t l ->
  remaining (toggleTodo (id t) l)
  = if completed t then S (remaining l) else Nat.pred (remaining l).
Proof.
  intros Hnd Ht.
  destruct (toggleTodo_split (id t) l Hnd (in_map id l t Ht))
    as (l1 & t' & l2 & Hl & Hid & Htog).
  assert (t' = t).
  { apply (same_id_same_task l); auto.
    rewrite Hl. apply in_or_app. right. now left. }
  subst t'. rewrite Htog, Hl.
  change (l1 ++ flip t :: l2) with (l1 ++ [flip t] ++ l2).
  change (l1 ++ t :: l2) with (l1 ++ [t] ++ l2).
  rewrite !remaining_app, !remaining_one. cbn [flip completed].
  destruct (completed t); cbn [negb]; lia.
Qed.

Lemma toggle_moves_counter_by_one_witness :
  NoDup (ids [task_a; task_b]) /\ In task_a [task_a; task_b]
  /\ remaining (toggleTodo (id task_a) [task_a; task_b]) = 0%nat.
Proof.
  assert (H : NoDup (ids [task_a; task_b])).
  { constructor; [simpl; intros [E|[]]; discriminate E|].
    constructor; [simpl; intros []|constructor]. }
  assert (H' : In task_a [task_a; task_b]) by (left; reflexivity).
  split; [exact H|]. split; [exact H'|].
  exact (toggle_moves_counter_by_one [task_a; task_b] task_a H H').
Defined.

(** X6: deleting takes from the counter of tasks left exactly the tasks
    with that id that were not completed; the counter never grows by a
    delete and never exceeds the length of the list. *)
Theorem delete_counter (i : jsstring) (l : list Task) :
  (remaining (deleteTodo i l) + remaining (matching i l) = remaining l)%nat
  /\ (remaining (deleteTodo i l) <= remaining l)%nat
  /\ (remaining l <= length l)%nat.
Proof.
  assert (E : (remaining (deleteTodo i l) + remaining (matching i l)
               = remaining l)%nat).
  { unfold remaining, deleteTodo, matching.
    induction l as [|t l IH]; cbn [filter]; [reflexivity|].
    destruct (JS.eqb (id t) i); cbn [negb filter];
      destruct (negb (completed t)); cbn [length]; lia. }
  repeat split; [exact E|lia|].
  unfold remaining. apply filter_length_le.
Qed.

(** X7: the order of two clicks on checkboxes or delete buttons does not
    matter: two toggles commute, two deletes commute, and a toggle
    commutes with a delete, for any ids (equal or not) and any list. *)
Theorem toggles_and_deletes_commute (i j : jsstring) (l : list Task) :
  toggleTodo i (toggleTodo j l) = toggleTodo j (toggleTodo i l)
  /\ deleteTodo i (deleteTodo j l) = deleteTodo j (deleteTodo i l)
  /\ deleteTodo i (toggleTodo j l) = toggleTodo j (deleteTodo i l).
Proof.
  repeat split; unfold toggleTodo, deleteTodo.
  - rewrite !map_map. apply map_ext. intros t.
    destruct (JS.eqb (id t) i) eqn:Ei, (JS.eqb (id t) j) eqn:Ej;
      cbn [flip id]; rewrite ?Ei, ?Ej; reflexivity.
  - induction l as [|t l IH]; [reflexivity|]. cbn [filter].
    destruct (JS.eqb (id t) i) eqn:Ei, (JS.eqb (id t) j) eqn:Ej;
      cbn [negb filter]; rewrite ?Ei, ?Ej; cbn [negb]; now rewrite ?IH.
  - induction l as [|t l IH]; [reflexivity|]. cbn [map filter].
    destruct (JS.eqb (id t) i) eqn:Ei, (JS.eqb (id t) j) eqn:Ej;
      cbn [flip id negb map]; rewrite ?Ei, ?Ej; cbn [negb];
      now rewrite ?IH.
Qed.

(** X8: deleting an id twice is deleting it once, and a toggle of an id
    just before or just after deleting that id leaves no trace. *)
Theorem delete_is_idempotent_and_absorbs_toggle (i : jsstring)
  (l : list Task) :
  deleteTodo i (deleteTodo i l) = deleteTodo i l
  /\ deleteTodo i (toggleTodo i l) = deleteTodo i l
  /\ toggleTodo i (deleteTodo i l) = deleteTodo i l.
Proof.
  repeat split.
  - apply deleteTodo_absent, deleteTodo_no_id.
  - unfold toggleTodo, deleteTodo.
    induction l as [|t l IH]; [reflexivity|]. cbn [map filter].
    destruct (JS.eqb (id t) i) eqn:Ei; cbn [flip id negb map];
      rewrite ?Ei; cbn [negb]; now rewrite IH.
  - apply toggleTodo_absent, deleteTodo_no_id.
Qed.

Lemma next_keeps_texts (e : Event) (s : State) :
  Forall (fun t => trimmed (text t) = true) (todos s) ->
  Forall (fun t => trimmed (text t) = true) (todos (next e s)).
Proof.
  intros H. rewrite next_todos.
  destruct e as [v|v|uuid now|i|i]; try exact H.
  - destruct (truthy (trim (inputValue s))) eqn:E; [|exact H].
    apply Forall_app; split; [exact H|].
    constructor; [|constructor]. cbn [text]. apply trim_trimmed.
    intros E'. now rewrite E' in E.
  - unfold toggleTodo. apply Forall_map.
    eapply Forall_impl; [|exact H].
    intros t Ht. now destruct (JS.eqb (id t) i).
  - unfold deleteTodo. apply Forall_forall. intros t Ht.
    apply filter_In in Ht as [Ht _].
    now apply (proj1 (Forall_forall _ _) H).
Qed.

(** X9: what [trim] leaves is empty or has no white space at either end,
    and trimming such a text again changes nothing; so the text of a task
    that [addTodo] creates is not empty and carries no white space at its
    ends, every event keeps that property of the list, and it holds of
    every list grown from the empty one. *)
Theorem task_texts_are_trimmed :
  (forall v, trim v = [] \/ trimmed (trim v) = true)
  /\ (forall v, trimmed v = true -> trim v = v)
  /\ (forall c es,
        Forall (fun t => trimmed (text t) = true) (todos (state c)) ->
        Forall (fun t => trimmed (text t) = true)
               (todos (state (run_events c es))))
  /\ (forall s stored es,
        todos s = [] ->
        Forall (fun t => trimmed (text t) = true)
               (todos (state (run_events (mounted s stored) es)))).
Proof.
  assert (Hrun : forall es c,
    Forall (fun t => trimmed (text t) = true) (todos (state c)) ->
    Forall (fun t => trimmed (text t) = true)
           (todos (state (run_events c es)))).
  { induction es as [|e es IH]; intros c H; [exact H|].
    rewrite run_events_cons. apply IH. rewrite dispatch_state.
    now apply next_keeps_texts. }
  repeat split.
  - intros v. destruct (trim v) eqn:E; [now left|right].
    rewrite <- E. apply trim_trimmed. congruence.
  - apply trimmed_trim.
  - intros c es. apply Hrun.
  - intros s stored es Hs. apply Hrun. cbn [mounted persist state].
    rewrite Hs. constructor.
Qed.

(** X10: with no date typed, the date of the new task is, for the years 0
    to 9999, ten code units: four digits, a hyphen, two digits, a hyphen,
    two digits; for any other year it is thirteen code units, a sign
    followed by six digits in place of the four. *)
Theorem default_date_format (now : Date) :
  length (date_or_today [] now)
  = (if ((0 <=? year now) && (year now <=? 9999))%Z then 10 else 13)%nat
  /\ (((0 <=? year now) && (year now <=? 9999))%Z = true ->
      nth_error (date_or_today [] now) 4 = Some 45
      /\ nth_error (date_or_today [] now) 7 = Some 45
      /\ forall k c, nth_error (date_or_today [] now) k = Some c ->
                     k <> 4%nat -> k <> 7%nat -> 48 <= c <= 57)
  /\ Forall (fun c => c = 43 \/ c = 45 \/ 48 <= c <= 57)
            (date_or_today [] now).
Proof.
  rewrite date_or_today_spec. cbn [truthy]. unfold isoDate, isoYear.
  assert (Hd : forall w n, Forall (fun c => c = 43 \/ c = 45 \/ 48 <= c <= 57)
                                  (digits w n)).
  { intros w n. eapply Forall_impl; [|apply digits_are_digits].
    cbv beta. intros c Hc. right; right. exact Hc. }
  split; [|split; [intros H; split; [|split]|]].
  - destruct ((0 <=? year now) && (year now <=? 9999))%Z;
      cbn [length]; rewrite !length_app, ?digits_length; reflexivity.
  - rewrite H. reflexivity.
  - rewrite H. reflexivity.
  - rewrite H. intros k c Hk H4 H7.
    assert (Hin : In c (digits 4 (Z.to_N (year now))
                        ++ digits 2 (month now) ++ digits 2 (day now))).
    { do 4 (destruct k as [|k]; [cbn in Hk; injection Hk as <-;
              cbn [digits app]; auto 10 using in_eq, in_cons|]).
      destruct k as [|k]; [congruence|].
      do 2 (destruct k as [|k]; [cbn in Hk; injection Hk as <-;
              cbn [digits app]; auto 12 using in_eq, in_cons|]).
      destruct k as [|k]; [congruence|].
      do 2 (destruct k as [|k]; [cbn in Hk; injection Hk as <-;
              cbn [digits app]; auto 14 using in_eq, in_cons|]).
      cbn in Hk. destruct k; discriminate Hk. }
    rewrite !in_app_iff in Hin.
    pose proof (fun w n => proj1 (Forall_forall _ _) (digits_are_digits w n) c)
      as Hdig. cbv beta in Hdig.
    destruct Hin as [Hin|[Hin|Hin]]; exact (Hdig _ _ Hin).
  - assert (Hdash : Forall (fun c => c = 43 \/ c = 45 \/ 48 <= c <= 57)
                           (lit "-"))
      by (constructor; [right; left; reflexivity|constructor]).
    rewrite !Forall_app. repeat split; try apply Hd; try exact Hdash.
    destruct ((0 <=? year now) && (year now <=? 9999))%Z; [apply Hd|].
    constructor; [destruct (year now <? 0)%Z; auto|apply Hd].
Qed.

Lemma run_white_space (ws : jsstring) :
  forallb JSON.is_ws ws = true -> run (MValue, []) ws = Ok (MValue, []).
Proof.
  induction ws as [|c ws IH]; cbn [forallb run step]; [reflexivity|].
  intros H. apply andb_true_iff in H as [Hc Hws]. rewrite Hc. now apply IH.
Qed.

(** X11: only the empty string is caught by the test [stored ? ... : []];
    a slot that holds white space and nothing else (one space, a line
    feed) goes to [JSON.parse] and the initializer throws
    [SyntaxError]. *)
Theorem white_space_slot_throws (text : jsstring) :
  text <> [] -> forallb JSON.is_ws text = true ->
  initTodos (Some text) = Throw SyntaxError.
Proof.
  intros Hne Hws. destruct text as [|c r]; [congruence|].
  cbn [initTodos truthy]. unfold parse.
  now rewrite (run_white_space (c :: r) Hws).
Qed.

Lemma white_space_slot_throws_witness :
  initTodos (Some (lit "  ")) = Throw SyntaxError.
Proof.
  apply white_space_slot_throws; [discriminate|reflexivity].
Defined.

(** X12: no event edits a task: every task of the list after an event is
    a task of the list before it, or such a task with only [completed]
    negated by the Toggle of its id, or the task that this Add created.
    The id, the text and the date of a task never change. *)
Theorem no_event_edits_a_task (e : Event) (s : State) :
  Forall (fun t =>
            In t (todos s)
            \/ (exists t0, In t0 (todos s) /\ e = Toggle (id t0)
                           /\ t = flip t0)
            \/ (exists uuid now,
                  e = Add uuid now
                  /\ t = {| id := uuid; text := trim (inputValue s);
                            completed := false;
                            date := date_or_today (inputDate s) now |}))
         (todos (next e s)).
Proof.
  rewrite next_todos. apply Forall_forall. intros t Ht.
  destruct e as [v|v|uuid now|i|i]; auto.
  - destruct (truthy (trim (inputValue s))); auto.
    apply in_app_or in Ht as [Ht|[<-|[]]]; auto.
    right; right. now exists uuid, now.
  - unfold toggleTodo in Ht. apply in_map_iff in Ht as (t0 & E & Ht0).
    destruct (JS.eqb (id t0) i) eqn:Ei; subst t; auto.
    apply jseqb_eq in Ei. subst i. right; left. now exists t0.
  - unfold deleteTodo in Ht. apply filter_In in Ht as [Ht _]. auto.
Qed.

(** X13: a Toggle or a Delete with an id that no task carries (a stale
    id) leaves the list equal to what it was, and still the effect runs:
    the same serialization is written to the slot once more. *)
Theorem stale_id_still_writes (i : jsstring) (c : Component) :
  ~ In i (ids (todos (state c))) ->
  (todos (state (dispatch (Toggle i) c)) = todos (state c)
   /\ writes (dispatch (Toggle i) c)
      = writes c ++ [stringify (todos (state c))])
  /\ (todos (state (dispatch (Delete i) c)) = todos (state c)
      /\ writes (dispatch (Delete i) c)
         = writes c ++ [stringify (todos (state c))]).
Proof.
  intros H. rewrite !writes_dispatch, !dispatch_state, !next_todos.
  cbn [mutating].
  rewrite (toggleTodo_absent i _ H), (deleteTodo_absent i _ H).
  repeat split.
Qed.

Lemma stale_id_still_writes_witness :
  ~ In (lit "gone") (ids (todos (state (component (typing [] [] [task_a])))))
  /\ writes (dispatch (Delete (lit "gone"))
               (component (typing [] [] [task_a])))
     = [stringify [task_a]].
Proof.
  assert (H : ~ In (lit "gone")
                (ids (todos (state (component (typing [] [] [task_a]))))))
    by (simpl; intros [E|[]]; discriminate E).
  split; [exact H|].
  exact (proj2 (proj2 (stale_id_still_writes (lit "gone")
                         (component (typing [] [] [task_a])) H))).
Defined.

(** X14: the serialization loses nothing: two lists of tasks that
    serialize to the same text are the same list. *)
Theorem stringify_injective (l l' : list Task) :
  stringify l = stringify l' -> l = l'.
Proof.
  intros E. apply tasks_value_inj.
  assert (H : Ok (MDone (tasks_value l), @nil frame)
              = Ok (MDone (tasks_value l'), [])).
  { rewrite <- !stringify_run. now rewrite E. }
  congruence.
Qed.

Lemma stringify_injective_witness :
  toggleTodo (lit "a") (toggleTodo (lit "a") [task_a; task_b])
  = [task_a; task_b].
Proof.
  apply stringify_injective. reflexivity.
Defined.
